(** * DRAB vector-record layer: identity mapping, record store, similarity search

    A shallow embedding of
      - [src/drab/src/services/vector.service.ts]    (VectorService),
      - [src/drab/src/services/embedding.service.ts] (EmbeddingService),
      - [src/drab/src/routes/query.routes.ts]        (the search handlers, stats and health),
      - [src/drab/src/routes/embedding.routes.ts]    (the embedding handlers),
    together with the properties of that code.

    Conventions.
      - A JS string is represented by the bytes of its UTF-8 encoding (a Rocq
        [string]); the ids the code inspects character by character are ASCII,
        and where the code cuts a text ([substring]) the UTF-16 code units are
        counted on the bytes.
      - A JS [number] is a binary64 float ([float]); array lengths are [nat].
      - An [async] method is a computation in the monad [Js]: it threads the
        state of the world (the collection held by the vector store, the log of
        requests sent to it, the random draws made so far) and either returns a
        value or throws an [Error] with a message. Every value thrown in these
        files is an [Error], so [error instanceof Error ? error.message :
        'Unknown error'] is [error.message].
      - Calls of [console.log] and [console.error] are left out.
      - The fields of each record type carry a prefix ([vr_] for [VectorRecord],
        [qr_] for [QueryResult], [pt_] for a point), since several types share
        the field names [id], [text] and [metadata]. *)

From Stdlib Require Import NArith List String Ascii Lia Bool DecimalString.
From Stdlib Require Import ZArith Floats.PrimFloat Floats.SpecFloat Floats.FloatOps Floats.FloatAxioms.
From stdpp Require Import gmap strings list.
Import ListNotations.

Local Open Scope string_scope.

(** ** SHA-256 (FIPS 180-4), as [crypto.createHash('sha256')] computes it *)

Module Sha256.
Local Open Scope N_scope.

Definition w32 (x : N) : N := x mod 2 ^ 32.
Definition add32 (x y : N) : N := w32 (x + y).
Definition rotr (n x : N) : N :=
  N.lor (N.shiftr x n) (w32 (N.shiftl x (32 - n))).
Definition shr (n x : N) : N := N.shiftr x n.
Definition not32 (x : N) : N := N.lxor x 0xffffffff.

Definition Ch (x y z : N) : N := N.lxor (N.land x y) (N.land (not32 x) z).
Definition Maj (x y z : N) : N :=
  N.lxor (N.lxor (N.land x y) (N.land x z)) (N.land y z).
Definition Sigma0 (x : N) : N := N.lxor (N.lxor (rotr 2 x) (rotr 13 x)) (rotr 22 x).
Definition Sigma1 (x : N) : N := N.lxor (N.lxor (rotr 6 x) (rotr 11 x)) (rotr 25 x).
Definition sigma0 (x : N) : N := N.lxor (N.lxor (rotr 7 x) (rotr 18 x)) (shr 3 x).
Definition sigma1 (x : N) : N := N.lxor (N.lxor (rotr 17 x) (rotr 19 x)) (shr 10 x).

(** The round constants and the initial hash value are the first 32 bits of the
    fractional parts of the cube roots of the first 64 primes, and of the square
    roots of the first 8. *)
Definition prime (n : N) : bool :=
  List.forallb (fun d => negb (n mod d =? 0)) (List.map N.of_nat (List.seq 2 (N.to_nat n - 2))).

Definition first_primes (n : nat) : list N :=
  List.firstn n (List.filter prime (List.map N.of_nat (List.seq 2 400))).

(** Integer cube root below [2 ^ b], one bit at a time. *)
Fixpoint cbrt_bits (b : nat) (x r : N) : N :=
  match b with
  | O => r
  | S b' =>
      let c := r + 2 ^ N.of_nat b' in
      cbrt_bits b' x (if c * c * c <=? x then c else r)
  end.

Definition K : list N :=
  Eval vm_compute in List.map (fun p => w32 (cbrt_bits 40 (p * 2 ^ 96) 0)) (first_primes 64).

(** The eight working variables / the intermediate hash value. *)
Record state := State { sa : N; sb : N; sc : N; sd : N; se : N; sf : N; sg : N; sh : N }.

Definition frac_sqrt (p : N) : N := w32 (N.sqrt (p * 2 ^ 64)).

Definition H0 : state :=
  Eval vm_compute in
    State (frac_sqrt 2) (frac_sqrt 3) (frac_sqrt 5) (frac_sqrt 7)
          (frac_sqrt 11) (frac_sqrt 13) (frac_sqrt 17) (frac_sqrt 19).

(** Big-endian encoding of [x] on [n] bytes. *)
Fixpoint be_bytes (n : nat) (x : N) : list N :=
  match n with
  | O => []
  | S n' => (N.shiftr x (8 * N.of_nat n')) mod 256 :: be_bytes n' x
  end.

(** Padding: the bit 1, zeros up to 56 mod 64, the bit length on 64 bits. *)
Definition pad (msg : list N) : list N :=
  let len := N.of_nat (List.length msg) in
  let zeros := N.to_nat ((64 + 55 - len mod 64) mod 64) in
  msg ++ [0x80] ++ List.repeat 0 zeros ++ be_bytes 8 (8 * len).

Fixpoint words (fuel : nat) (bs : list N) : list N :=
  match fuel, bs with
  | S fuel', b0 :: b1 :: b2 :: b3 :: rest =>
      (N.shiftl b0 24 + N.shiftl b1 16 + N.shiftl b2 8 + b3) :: words fuel' rest
  | _, _ => []
  end.

(** Message schedule: [ws] holds W_0 .. W_{t-1}; [n] more words are appended. *)
Fixpoint schedule (n : nat) (ws : list N) : list N :=
  match n with
  | O => ws
  | S n' =>
      let t := List.length ws in
      let w i := List.nth (t - i) ws 0 in
      schedule n' (ws ++ [add32 (add32 (add32 (sigma1 (w 2%nat)) (w 7%nat)) (sigma0 (w 15%nat))) (w 16%nat)])
  end.

Definition round (s : state) (kw : N * N) : state :=
  let t1 := add32 (add32 (add32 (add32 (sh s) (Sigma1 (se s))) (Ch (se s) (sf s) (sg s))) (fst kw)) (snd kw) in
  let t2 := add32 (Sigma0 (sa s)) (Maj (sa s) (sb s) (sc s)) in
  State (add32 t1 t2) (sa s) (sb s) (sc s) (add32 (sd s) t1) (se s) (sf s) (sg s).

Definition compress (h : state) (block : list N) : state :=
  let w := schedule 48 (words 16 block) in
  let s := List.fold_left round (List.combine K w) h in
  State (add32 (sa h) (sa s)) (add32 (sb h) (sb s)) (add32 (sc h) (sc s)) (add32 (sd h) (sd s))
        (add32 (se h) (se s)) (add32 (sf h) (sf s)) (add32 (sg h) (sg s)) (add32 (sh h) (sh s)).

Fixpoint blocks (fuel : nat) (h : state) (bs : list N) : state :=
  match fuel, bs with
  | S fuel', _ :: _ => blocks fuel' (compress h (List.firstn 64 bs)) (List.skipn 64 bs)
  | _, _ => h
  end.

Definition hash (msg : list N) : state :=
  let p := pad msg in blocks (List.length p) H0 p.

End Sha256.

(** ** JavaScript string and number primitives used by the services *)

Definition hexdigit (d : N) : ascii :=
  match d with
  | 0 => "0" | 1 => "1" | 2 => "2" | 3 => "3" | 4 => "4" | 5 => "5" | 6 => "6" | 7 => "7"
  | 8 => "8" | 9 => "9" | 10 => "a" | 11 => "b" | 12 => "c" | 13 => "d" | 14 => "e" | _ => "f"
  end%N%char.

(** [x] written on exactly [n] lower-case hexadecimal digits (the low [4n] bits). *)
Fixpoint hex (n : nat) (x : N) : string :=
  match n with
  | O => ""
  | S n' => String (hexdigit (N.shiftr x (4 * N.of_nat n') mod 16)%N) (hex n' x)
  end.

(** [digest('hex')] of a SHA-256 state: 64 lower-case hexadecimal digits. *)
Definition digest_hex (s : Sha256.state) : string :=
  hex 8 (Sha256.sa s) +:+ hex 8 (Sha256.sb s) +:+ hex 8 (Sha256.sc s) +:+ hex 8 (Sha256.sd s) +:+
  hex 8 (Sha256.se s) +:+ hex 8 (Sha256.sf s) +:+ hex 8 (Sha256.sg s) +:+ hex 8 (Sha256.sh s).

(** [crypto.createHash('sha256').update(s).digest('hex')] *)
Definition sha256_hex (s : string) : string :=
  digest_hex (Sha256.hash (List.map N_of_ascii (list_ascii_of_string s))).

(** [s.substring(a, b)] of an ASCII string, of which the bytes are the code
    units: both indices clamped to the length, swapped when [a > b]. *)
Definition js_substring (a b : nat) (s : string) : string :=
  let a' := Nat.min a (String.length s) in
  let b' := Nat.min b (String.length s) in
  substring (Nat.min a' b') (Nat.max a' b' - Nat.min a' b') s.

(** [s.substring(0, n)] of a text that may hold any character. [substring]
    counts UTF-16 code units: a character encoded on one, two or three bytes is
    one unit, a character encoded on four bytes (beyond U+FFFF) is two, a
    surrogate pair. When the cut falls inside a pair, the result ends with the
    high surrogate alone, written here on its three bytes. *)
Definition continuation (i : nat) (s : string) : N :=
  match String.get i s with
  | Some c => N.land (N_of_ascii c) 0x3F
  | None => 0
  end%N.

(** The high surrogate of the character whose first byte is [lead] and whose
    other three bytes open [rest]. *)
Definition high_surrogate (lead : ascii) (rest : string) : string :=
  let codePoint :=
    (N.shiftl (N.land (N_of_ascii lead) 0x07) 18 + N.shiftl (continuation 0 rest) 12
     + N.shiftl (continuation 1 rest) 6 + continuation 2 rest)%N in
  let unit := (0xD800 + N.shiftr (codePoint - 0x10000) 10)%N in
  String (ascii_of_N 0xED)
    (String (ascii_of_N (0x80 + N.land (N.shiftr unit 6) 0x3F))
       (String (ascii_of_N (0x80 + N.land unit 0x3F)) "")).

(** The first [n] code units of [s]; [pending] is the number of bytes still to
    copy of the character being copied. *)
Fixpoint utf16_prefix (n pending : nat) (s : string) : string :=
  match s with
  | "" => ""
  | String c rest =>
      match pending with
      | S pending' => String c (utf16_prefix n pending' rest)
      | O =>
          match n with
          | O => ""
          | S n' =>
              let byte := N_of_ascii c in
              if (byte <? 0x80)%N then String c (utf16_prefix n' 0 rest)
              else if (byte <? 0xE0)%N then String c (utf16_prefix n' 1 rest)
              else if (byte <? 0xF0)%N then String c (utf16_prefix n' 2 rest)
              else
                match n' with
                | O => high_surrogate c rest
                | S n'' => String c (utf16_prefix n'' 3 rest)
                end
          end
      end
  end.

Definition js_substring_0 (n : nat) (s : string) : string := utf16_prefix n 0 s.

Definition hexval (c : ascii) : option N :=
  let n := N_of_ascii c in
  (if (48 <=? n) && (n <=? 57) then Some (n - 48)
   else if (97 <=? n) && (n <=? 102) then Some (n - 87)
   else if (65 <=? n) && (n <=? 70) then Some (n - 55)
   else None)%N.

(** [parseInt(s, 16)] for a string without sign, blank or [0x] prefix (any string
    of at most one character is such): the value of the longest prefix of
    hexadecimal digits, [None] (NaN) when that prefix is empty. *)
Fixpoint parseInt16_from (acc : N) (s : string) : N :=
  match s with
  | String c s' => match hexval c with Some d => parseInt16_from (16 * acc + d)%N s' | None => acc end
  | EmptyString => acc
  end.

Definition parseInt16 (s : string) : option N :=
  match s with
  | String c s' => match hexval c with Some d => Some (parseInt16_from d s') | None => None end
  | EmptyString => None
  end.

(** [x & y] on a possibly-NaN left operand: ToInt32(NaN) is 0. *)
Definition js_and (x : option N) (y : N) : N := N.land (default 0%N x) y.

Fixpoint toString16_from (fuel : nat) (n : N) (acc : string) : string :=
  match fuel with
  | O => acc
  | S fuel' =>
      let acc' := String (hexdigit (n mod 16)%N) acc in
      if (n / 16 =? 0)%N then acc' else toString16_from fuel' (n / 16)%N acc'
  end.

(** [n.toString(16)] for a non-negative integer. *)
Definition toString16 (n : N) : string := toString16_from (S (N.size_nat n)) n "".

(** [`${n}`] for an array length. *)
Definition decimal (n : nat) : string := NilZero.string_of_uint (Nat.to_uint n).

(** [xs.join('-')] *)
Fixpoint join_dash (xs : list string) : string :=
  match xs with
  | [] => ""
  | [x] => x
  | x :: rest => x +:+ "-" +:+ join_dash rest
  end.

(** [Math.min] and [Math.max] of two numbers (ECMAScript: NaN is contagious and
    -0 is below +0). *)
Definition Math_min (x y : float) : float :=
  if is_nan x || is_nan y then nan
  else if (x <? y)%float then x
  else if (y <? x)%float then y
  else if is_zero x && get_sign x then x else y.

Definition Math_max (x y : float) : float :=
  if is_nan x || is_nan y then nan
  else if (y <? x)%float then x
  else if (x <? y)%float then y
  else if is_zero x && negb (get_sign x) then x else y.

(** Truthiness of an optional string: [undefined] and [""] are falsy. *)
Definition truthy (o : option string) : option string :=
  match o with
  | Some (String c s) => Some (String c s)
  | _ => None
  end.

(** [a || b] for an optional string [a]. *)
Definition or_else (a : option string) (b : string) : string := default b (truthy a).

(** The one-byte white space and line terminators that [trim] removes. *)
Definition is_blank (c : ascii) : bool :=
  let n := N_of_ascii c in ((9 <=? n) && (n <=? 13) || (n =? 32))%N.

(** The other ones, by their UTF-8 encoding: U+00A0 on two bytes; U+1680,
    U+2000 to U+200A, U+2028, U+2029, U+202F, U+205F, U+3000 and U+FEFF on three. *)
Definition is_blank2 (c1 c2 : ascii) : bool :=
  ((N_of_ascii c1 =? 0xC2) && (N_of_ascii c2 =? 0xA0))%N.

Definition is_blank3 (c1 c2 c3 : ascii) : bool :=
  let n1 := N_of_ascii c1 in
  let n2 := N_of_ascii c2 in
  let n3 := N_of_ascii c3 in
  ((n1 =? 0xE1) && (n2 =? 0x9A) && (n3 =? 0x80)
   || (n1 =? 0xE2) && (n2 =? 0x80)
        && ((0x80 <=? n3) && (n3 <=? 0x8A) || (n3 =? 0xA8) || (n3 =? 0xA9) || (n3 =? 0xAF))
   || (n1 =? 0xE2) && (n2 =? 0x81) && (n3 =? 0x9F)
   || (n1 =? 0xE3) && (n2 =? 0x80) && (n3 =? 0x80)
   || (n1 =? 0xEF) && (n2 =? 0xBB) && (n3 =? 0xBF))%N.

(** [!text || text.trim().length === 0]: the text is empty or white space only. *)
Fixpoint all_blank (s : string) : bool :=
  match s with
  | EmptyString => true
  | String c1 s1 =>
      if is_blank c1 then all_blank s1
      else
        match s1 with
        | String c2 s2 =>
            if is_blank2 c1 c2 then all_blank s2
            else
              match s2 with
              | String c3 s3 => is_blank3 c1 c2 c3 && all_blank s3
              | EmptyString => false
              end
        | EmptyString => false
        end
  end.

(** ** The UUID pattern of [convertToValidId]

    [/^[0-9a-f]{8}-[0-9a-f]{4}-[1-5][0-9a-f]{3}-[89ab][0-9a-f]{3}-[0-9a-f]{12}$/i] *)

Inductive CharClass := HexDigit | Version | Variant | Dash.

Definition in_class (k : CharClass) (c : ascii) : bool :=
  let n := N_of_ascii c in
  match k with
  | HexDigit => match hexval c with Some _ => true | None => false end
  | Version => ((49 <=? n) && (n <=? 53))%N
  | Variant => ((n =? 56) || (n =? 57) || (n =? 97) || (n =? 98) || (n =? 65) || (n =? 66))%N
  | Dash => (n =? 45)%N
  end.

(** An anchored match of a sequence of character classes. *)
Fixpoint matches (p : list CharClass) (s : string) : bool :=
  match p, s with
  | [], EmptyString => true
  | k :: p', String c s' => in_class k c && matches p' s'
  | _, _ => false
  end.

Definition uuidRegex : list CharClass :=
  List.repeat HexDigit 8 ++ [Dash] ++ List.repeat HexDigit 4 ++ [Dash] ++
  [Version] ++ List.repeat HexDigit 3 ++ [Dash] ++
  [Variant] ++ List.repeat HexDigit 3 ++ [Dash] ++ List.repeat HexDigit 12.

Definition uuidRegex_test (s : string) : bool := matches uuidRegex s.

(** ** Data model ([types/index.ts] and the points held by the vector store) *)

(** [Record<string, any>]: the values are opaque to this layer and are kept as
    their JSON text. *)
Abbreviation Metadata := (gmap string string).

Record VectorRecord := {
  vr_id : option string;
  vr_text : string;
  vr_embedding : list float;
  vr_metadata : option Metadata;
}.

Record QueryResult := {
  qr_id : string;
  qr_text : string;
  qr_score : float;
  qr_metadata : Metadata;
}.

Record Payload := {
  original_id : option string;
  pl_text : string;
  pl_metadata : Metadata;
  created_at : N;
}.

Record Point := {
  pt_id : string;
  pt_vector : list float;
  pt_payload : Payload;
}.

Record ScoredPoint := {
  sp_id : string;
  sp_score : float;
  sp_payload : Payload;
}.

(** The shapes in which the feature-extraction pipeline may hand back its result. *)
Inductive PipelineOutput :=
| ArrayOfArrays (rows : list (list float))
| ArrayOfNumbers (xs : list float)
| TensorLike (data : list float)
| OtherOutput.

(** ** The world and the monad of [async] methods *)

Inductive Outcome (A : Type) :=
| Returned (a : A)
| Thrown (message : string).
Arguments Returned {A} a.
Arguments Thrown {A} message.

(** Requests of the Qdrant client, as the service issues them. *)
Inductive Request :=
| Upsert (pts : list Point)
| Retrieve (ids : list string)
| Scroll (originalId : string) (limit : nat)
| Delete (ids : list string)
| Search (vector : list float) (limit threshold : float).

Record World := {
  points : gmap string Point;          (* the collection [drab_embeddings] *)
  requests : list Request;             (* requests sent to the store, latest first *)
  faults : nat -> option string;       (* whether the n-th request is refused, and why *)
  draws : nat;                         (* UUIDs drawn so far *)
  entropy : nat -> N;                  (* the 128 random bits of the n-th draw *)
  clock : N;                           (* what [new Date()] reads *)
  embedder : option (string -> Outcome PipelineOutput);
  embedded : list string;              (* texts handed to the pipeline, latest first *)
}.

Definition Js (A : Type) : Type := World -> Outcome A * World.

Definition ret {A} (a : A) : Js A := fun w => (Returned a, w).
Definition throw {A} (message : string) : Js A := fun w => (Thrown message, w).
Definition bind {A B} (m : Js A) (k : A -> Js B) : Js B :=
  fun w => match m w with
           | (Returned a, w') => k a w'
           | (Thrown e, w') => (Thrown e, w')
           end.
(** [try { m } catch (error) { handler(error.message) }] *)
Definition try_catch {A} (m : Js A) (handler : string -> Js A) : Js A :=
  fun w => match m w with
           | (Returned a, w') => (Returned a, w')
           | (Thrown e, w') => handler e w'
           end.

Notation "'let!' x ':=' m 'in' k" := (bind m (fun x => k))
  (at level 10, x name, m at level 100, k at level 200).

Fixpoint mapM {A B} (f : A -> Js B) (xs : list A) : Js (list B) :=
  match xs with
  | [] => ret []
  | x :: xs' => let! y := f x in let! ys := mapM f xs' in ret (y :: ys)
  end.

Definition with_points (pts : gmap string Point) (w : World) : World :=
  {| points := pts; requests := requests w; faults := faults w; draws := draws w;
     entropy := entropy w; clock := clock w; embedder := embedder w; embedded := embedded w |}.

Definition sent (r : Request) (w : World) : World :=
  {| points := points w; requests := r :: requests w; faults := faults w; draws := draws w;
     entropy := entropy w; clock := clock w; embedder := embedder w; embedded := embedded w |}.

Definition drawn (w : World) : World :=
  {| points := points w; requests := requests w; faults := faults w; draws := S (draws w);
     entropy := entropy w; clock := clock w; embedder := embedder w; embedded := embedded w |}.

Definition fed (text : string) (w : World) : World :=
  {| points := points w; requests := requests w; faults := faults w; draws := draws w;
     entropy := entropy w; clock := clock w; embedder := embedder w; embedded := text :: embedded w |}.

(** [new Date()] *)
Definition now : Js N := fun w => (Returned (clock w), w).

(** ** [uuid]'s [v4()]: 16 random bytes, version nibble 4, variant bits 10

    The package sets [rnds[6] = (rnds[6] & 0x0f) | 0x40] and
    [rnds[8] = (rnds[8] & 0x3f) | 0x80] and prints the bytes in hexadecimal,
    with dashes after bytes 4, 6, 8 and 10. *)

Definition byte_at (i : nat) (x : N) : N := (N.shiftr x (8 * N.of_nat (15 - i)) mod 256)%N.

Definition uuid_of_bits (x : N) : string :=
  let b i := hex 2 (byte_at i x) in
  let b6 := hex 2 (N.lor (N.land (byte_at 6 x) 0x0f) 0x40) in
  let b8 := hex 2 (N.lor (N.land (byte_at 8 x) 0x3f) 0x80) in
  join_dash [ b 0%nat +:+ b 1%nat +:+ b 2%nat +:+ b 3%nat;
              b 4%nat +:+ b 5%nat;
              b6 +:+ b 7%nat;
              b8 +:+ b 9%nat;
              b 10%nat +:+ b 11%nat +:+ b 12%nat +:+ b 13%nat +:+ b 14%nat +:+ b 15%nat ].

Definition uuidv4 : Js string :=
  fun w => (Returned (uuid_of_bits (entropy w (draws w))), drawn w).

(** ** The vector store *)

(** Modelled from the spec: the Qdrant client is an external package; it is
    modelled after the Vector Store contract of the specification, a collection
    of [(key, vector, payload)] points with upsert (insert or full replace by
    key), retrieval by key, payload-filtered scroll, delete by key, and
    cosine-ranked search bounded by a limit and a score threshold. A request is
    acknowledged whatever keys it names; it throws only when the store refuses
    it ([faults]). Every request, answered or not, is recorded in [requests]. *)
Definition request {A} (r : Request) (serve : gmap string Point -> A * gmap string Point) : Js A :=
  fun w =>
    match faults w (List.length (requests w)) with
    | Some message => (Thrown message, sent r w)
    | None => let (a, pts) := serve (points w) in (Returned a, with_points pts (sent r w))
    end.

Definition client_upsert (pts : list Point) : Js unit :=
  request (Upsert pts)
    (fun m => (tt, List.fold_left (fun m p => <[pt_id p := p]> m) pts m)).

Definition client_retrieve (ids : list string) : Js (list Point) :=
  request (Retrieve ids) (fun m => (omap (fun k => m !! k) ids, m)).

Definition has_original_id (v : string) (p : Point) : bool :=
  match original_id (pt_payload p) with
  | Some o => String.eqb o v
  | None => false
  end.

Definition client_scroll (originalId : string) (limit : nat) : Js (list Point) :=
  request (Scroll originalId limit)
    (fun m => (List.firstn limit (List.filter (has_original_id originalId) (List.map snd (map_to_list m))), m)).

Definition client_delete (ids : list string) : Js unit :=
  request (Delete ids) (fun m => (tt, List.fold_left (fun m k => delete k m) ids m)).

Fixpoint dot (a b : list float) : float :=
  match a, b with
  | x :: a', y :: b' => (x * y + dot a' b')%float
  | _, _ => 0%float
  end.

Definition cosine (a b : list float) : float :=
  (dot a b / (sqrt (dot a a) * sqrt (dot b b)))%float.

Definition scored (query : list float) (p : Point) : ScoredPoint :=
  {| sp_id := pt_id p; sp_score := cosine query (pt_vector p); sp_payload := pt_payload p |}.

Fixpoint insert_by_score (x : ScoredPoint) (xs : list ScoredPoint) : list ScoredPoint :=
  match xs with
  | [] => [x]
  | y :: ys => if (sp_score y <? sp_score x)%float then x :: y :: ys else y :: insert_by_score x ys
  end.

Definition rank (xs : list ScoredPoint) : list ScoredPoint :=
  List.fold_right insert_by_score [] xs.

(** The number of results a numeric [limit] stands for. *)
Definition count_of (limit : float) : nat :=
  match Prim2SF limit with
  | S754_finite false m e =>
      Z.to_nat (if (0 <=? e)%Z then Z.pos m * 2 ^ e else Z.pos m / 2 ^ (- e))
  | _ => O
  end.

Definition client_search (vector : list float) (limit threshold : float) : Js (list ScoredPoint) :=
  request (Search vector limit threshold)
    (fun m =>
       (List.firstn (count_of limit)
          (rank (List.filter (fun s => (threshold <=? sp_score s)%float)
                   (List.map (fun kp => scored vector (snd kp)) (map_to_list m)))), m)).

(** ** VectorService ([services/vector.service.ts]) *)

Definition vectorSize : nat := 384.

(** [convertToValidId(customId?)], lines 76-101. *)
Definition convertToValidId (customId : option string) : Js string :=
  match truthy customId with
  | None => uuidv4
  | Some customId =>
      if uuidRegex_test customId then ret customId
      else
        let hash := sha256_hex customId in
        ret (join_dash
               [ js_substring 0 8 hash;
                 js_substring 8 12 hash;
                 "4" +:+ js_substring 13 16 hash;
                 toString16 (N.lor (js_and (parseInt16 (js_substring 16 17 hash)) 0x3) 0x8)
                   +:+ js_substring 17 20 hash;
                 js_substring 20 32 hash ])
  end.

Definition dimension_mismatch (actual : nat) : string :=
  "Embedding dimension mismatch. Expected " +:+ decimal vectorSize +:+ ", got " +:+ decimal actual.

(** [storeVector(record)], lines 108-160. *)
Definition storeVector (record : VectorRecord) : Js string :=
  try_catch
    (let originalId := vr_id record in
     let! qdrantId := convertToValidId (vr_id record) in
     if negb (Nat.eqb (List.length (vr_embedding record)) vectorSize) then
       throw (dimension_mismatch (List.length (vr_embedding record)))
     else
       let! date := now in
       let point :=
         {| pt_id := qdrantId;
            pt_vector := vr_embedding record;
            pt_payload :=
              {| original_id := originalId;
                 pl_text := vr_text record;
                 pl_metadata := default ∅ (vr_metadata record);
                 created_at := date |} |} in
       let! _ := client_upsert [point] in
       ret (or_else originalId qdrantId))
    (fun message => throw ("Failed to store vector: " +:+ message)).

Definition batch_dimension_mismatch (id : string) (actual : nat) : string :=
  "Embedding dimension mismatch for record " +:+ id +:+ ". Expected " +:+ decimal vectorSize
    +:+ ", got " +:+ decimal actual.

(** The callback of [records.map] in [storeVectors], lines 171-189. *)
Definition batch_point (record : VectorRecord) : Js Point :=
  let! id := match truthy (vr_id record) with Some id => ret id | None => uuidv4 end in
  if negb (Nat.eqb (List.length (vr_embedding record)) vectorSize) then
    throw (batch_dimension_mismatch id (List.length (vr_embedding record)))
  else
    let! date := now in
    ret {| pt_id := id;
           pt_vector := vr_embedding record;
           pt_payload :=
             {| original_id := None;
                pl_text := vr_text record;
                pl_metadata := default ∅ (vr_metadata record);
                created_at := date |} |}.

(** [storeVectors(records)], lines 167-207. *)
Definition storeVectors (records : list VectorRecord) : Js (list string) :=
  try_catch
    (let! pts := mapM batch_point records in
     let! _ := client_upsert pts in
     ret (List.map pt_id pts))
    (fun message => throw ("Failed to store vectors: " +:+ message)).

(** [result.score || 0] *)
Definition score_or_zero (s : float) : float :=
  if is_zero s || is_nan s then 0%float else s.

(** The result mapping of [searchSimilar], lines 237-242. *)
Definition to_result (result : ScoredPoint) : QueryResult :=
  {| qr_id := or_else (original_id (sp_payload result)) (sp_id result);
     qr_text := pl_text (sp_payload result);
     qr_score := score_or_zero (sp_score result);
     qr_metadata := pl_metadata (sp_payload result) |}.

(** [searchSimilar(queryVector, limit, threshold)], lines 216-254. *)
Definition searchSimilar (queryVector : list float) (limit threshold : float) : Js (list QueryResult) :=
  try_catch
    (if negb (Nat.eqb (List.length queryVector) vectorSize) then
       throw ("Query vector dimension mismatch. Expected " +:+ decimal vectorSize +:+ ", got "
                +:+ decimal (List.length queryVector))
     else
       let! searchResult := client_search queryVector limit threshold in
       ret (List.map to_result searchResult))
    (fun message => throw ("Failed to search similar vectors: " +:+ message)).

(** The record rebuilt from a stored point, lines 307-312. *)
Definition to_record (point : Point) : VectorRecord :=
  {| vr_id := Some (or_else (original_id (pt_payload point)) (pt_id point));
     vr_text := pl_text (pt_payload point);
     vr_embedding := pt_vector point;
     vr_metadata := Some (pl_metadata (pt_payload point)) |}.

(** [getVector(id)], lines 261-324. *)
Definition getVector (id : string) : Js (option VectorRecord) :=
  try_catch
    (let! qdrantId := convertToValidId (Some id) in
     let! result := client_retrieve [qdrantId] in
     let! result :=
       if Nat.eqb (List.length result) 0 && negb (String.eqb qdrantId id) then
         let! searchResult := client_scroll id 1 in
         ret (if Nat.ltb 0 (List.length searchResult) then searchResult else result)
       else ret result in
     match result with
     | [] => ret None
     | point :: _ => ret (Some (to_record point))
     end)
    (fun message => throw ("Failed to retrieve vector: " +:+ message)).

(** [deleteVector(id)], lines 331-385. *)
Definition deleteVector (id : string) : Js bool :=
  try_catch
    (let! qdrantId := convertToValidId (Some id) in
     try_catch
       (let! _ := client_delete [qdrantId] in
        ret true)
       (fun _ =>
          if negb (String.eqb qdrantId id) then
            let! searchResult := client_scroll id 1 in
            match searchResult with
            | found :: _ =>
                let! _ := client_delete [pt_id found] in
                ret true
            | [] => ret false
            end
          else ret false))
    (fun message => throw ("Failed to delete vector: " +:+ message)).

(** ** EmbeddingService ([services/embedding.service.ts]) *)

Definition run_pipeline (pipeline : string -> Outcome PipelineOutput) (text : string) : Js PipelineOutput :=
  fun w => (pipeline text, fed text w).

(** [generateEmbedding(text)], lines 64-106. *)
Definition generateEmbedding (text : string) : Js (list float) :=
  fun w =>
    match embedder w with
    | None => throw "Embedding model not initialized. Call initialize() first." w
    | Some pipeline =>
        if all_blank text then throw "Input text cannot be empty" w
        else
          try_catch
            (let! result := run_pipeline pipeline text in
             match result with
             | ArrayOfArrays (row :: _) => ret row
             | ArrayOfNumbers (x :: xs) => ret (x :: xs)
             | TensorLike data => ret data
             | _ => throw "Unexpected embedding result format"
             end)
            (fun message => throw ("Failed to generate embedding: " +:+ message)) w
    end.

(** [generateEmbeddings(texts)], lines 113-125. *)
Definition generateEmbeddings (texts : list string) : Js (list (list float)) :=
  match texts with
  | [] => throw "Input texts array cannot be empty"
  | _ => mapM generateEmbedding texts
  end.

(** ** The search handlers ([routes/query.routes.ts]) *)

Record QueryRequest := {
  q_query : string;
  q_limit : option float;
  q_threshold : option float;
}.

Record QueryResponse := {
  resp_results : list QueryResult;
  resp_query : string;
  resp_success : bool;
}.

(** The search both handlers run, lines 28-32 and 108-112: the service is called
    with [Math.min(limit, 100)] and [Math.max(threshold, 0.0)]. *)
Definition search (queryVector : list float) (limit threshold : float) : Js (list QueryResult) :=
  searchSimilar queryVector (Math_min limit 100) (Math_max threshold 0).

(** The handler of [POST /query], lines 9-51; the reply is [set.status] and the body. *)
Definition post_query (body : QueryRequest) : Js (nat * QueryResponse) :=
  try_catch
    (let query := q_query body in
     let limit := default 10%float (q_limit body) in
     let threshold := default 0%float (q_threshold body) in
     if all_blank query then
       ret (400, {| resp_results := []; resp_query := ""; resp_success := false |})
     else
       let! queryEmbedding := generateEmbedding query in
       let! results := search queryEmbedding limit threshold in
       ret (200, {| resp_results := results; resp_query := query; resp_success := true |}))
    (fun _ => ret (500, {| resp_results := []; resp_query := ""; resp_success := false |})).

(** The handler of [POST /query/similar/:id], lines 89-134. *)
Definition post_similar (id : string) (limit threshold : option float) : Js (nat * QueryResponse) :=
  try_catch
    (let limit := default 10%float limit in
     let threshold := default 0%float threshold in
     let! found := getVector id in
     match found with
     | None =>
         ret (404, {| resp_results := []; resp_query := "Vector with ID: " +:+ id; resp_success := false |})
     | Some record =>
         let! results := search (vr_embedding record) limit threshold in
         let filteredResults := List.filter (fun result => negb (String.eqb (qr_id result) id)) results in
         ret (200, {| resp_results := filteredResults;
                      resp_query := "Similar to: " +:+ js_substring_0 100 (vr_text record) +:+ "...";
                      resp_success := true |})
     end)
    (fun _ => ret (500, {| resp_results := []; resp_query := ""; resp_success := false |})).

(** The schema the route declares for the body of [POST /query], lines 53-57:
    [query] of at least one character, [limit] in [1, 100], [threshold] in
    [0, 1]. It belongs to the route, not to the handler above. *)
Definition within (lo hi : float) (x : option float) : bool :=
  match x with
  | Some x => ((lo <=? x) && (x <=? hi))%float
  | None => true
  end.

Definition query_body_schema (body : QueryRequest) : bool :=
  Nat.leb 1 (String.length (q_query body))
  && within 1 100 (q_limit body) && within 0 1 (q_threshold body).

(** ** Auxiliary definitions used in the statements *)

(** A text of ASCII characters only. *)
Fixpoint ascii_text (s : string) : bool :=
  match s with
  | "" => true
  | String c rest => (N_of_ascii c <? 0x80)%N && ascii_text rest
  end.

(** The key [convertToValidId] builds from the SHA-256 digest of an id that is
    not in UUID format (lines 89-100). *)
Definition hashedKey (customId : string) : string :=
  let hash := sha256_hex customId in
  join_dash
    [ js_substring 0 8 hash;
      js_substring 8 12 hash;
      "4" +:+ js_substring 13 16 hash;
      toString16 (N.lor (js_and (parseInt16 (js_substring 16 17 hash)) 0x3) 0x8)
        +:+ js_substring 17 20 hash;
      js_substring 20 32 hash ].

(** The storage key of a non-empty id. *)
Definition storageKey (customId : string) : string :=
  if uuidRegex_test customId then customId else hashedKey customId.

(** A world with an empty collection, a store that answers every request, and
    the counter 0, 1, 2, ... as source of random bits. *)
Definition quiet_world : World :=
  {| points := ∅; requests := []; faults := fun _ => None; draws := 0;
     entropy := fun n => N.of_nat n; clock := 0; embedder := None; embedded := [] |}.

(** A unit vector of the collection's dimension. *)
Definition unit_vector : list float := 1%float :: List.repeat 0%float 383.

Definition doc_001 : VectorRecord :=
  {| vr_id := Some "doc_001"; vr_text := "Photosynthesis converts sunlight into energy";
     vr_embedding := unit_vector; vr_metadata := None |}.

(** The key [convertToValidId] returns in world [w], and the world it leaves:
    an absent or empty id costs one random draw. *)
Definition keyOf (customId : option string) (w : World) : string :=
  match truthy customId with
  | Some s => storageKey s
  | None => uuid_of_bits (entropy w (draws w))
  end.

Definition afterKey (customId : option string) (w : World) : World :=
  match truthy customId with
  | Some _ => w
  | None => drawn w
  end.

(** The point [storeVector] builds for [record] under [key] at time [date]
    (lines 122-131). *)
Definition pointOf (record : VectorRecord) (key : string) (date : N) : Point :=
  {| pt_id := key;
     pt_vector := vr_embedding record;
     pt_payload :=
       {| original_id := vr_id record;
          pl_text := vr_text record;
          pl_metadata := default ∅ (vr_metadata record);
          created_at := date |} |}.

(** The status and the ids of the results of a handler's reply. *)
Definition reply_ids (r : Outcome (nat * QueryResponse)) : option (nat * list string) :=
  match r with
  | Returned (status, response) => Some (status, List.map qr_id (resp_results response))
  | Thrown _ => None
  end.

(** The [original_id] found in the payload of the point stored under [key]. *)
Definition stored_original_id (key : string) (w : World) : option (option string) :=
  option_map (fun p => original_id (pt_payload p)) (points w !! key).

(** A record whose id is already a UUID. *)
Definition doc_uuid : VectorRecord :=
  {| vr_id := Some "550e8400-e29b-41d4-a716-446655440000"; vr_text := "Unrelated text";
     vr_embedding := unit_vector; vr_metadata := None |}.

(** Every point that records a (non-empty) original id sits under the key
    derived from that id. *)
Definition well_keyed (m : gmap string Point) : Prop :=
  forall (k : string) (p : Point) (id : string),
    m !! k = Some p -> original_id (pt_payload p) = Some id -> id <> "" -> k = storageKey id.

(** ** The embedding handlers ([routes/embedding.routes.ts]) *)

Record EmbeddingRequest := {
  er_text : string;
  er_id : option string;
  er_metadata : option Metadata;
}.

Record EmbeddingResponse := {
  em_id : string;
  em_text : string;
  em_embedding : list float;
  em_metadata : option Metadata;
  em_success : bool;
}.

(** The body the handlers send for an item that was not stored. *)
Definition not_stored (id text : string) (metadata : Metadata) : EmbeddingResponse :=
  {| em_id := id; em_text := text; em_embedding := []; em_metadata := Some metadata;
     em_success := false |}.

(** The handler of [POST /embed], lines 9-58. *)
Definition post_embed (body : EmbeddingRequest) : Js (nat * EmbeddingResponse) :=
  try_catch
    (let text := er_text body in
     let id := er_id body in
     let metadata := er_metadata body in
     if all_blank text then ret (400, not_stored (or_else id "") "" ∅)
     else
       let! embedding := generateEmbedding text in
       let! recordId :=
         storeVector {| vr_id := truthy id; vr_text := text; vr_embedding := embedding;
                        vr_metadata := metadata |} in
       ret (201, {| em_id := recordId; em_text := text; em_embedding := embedding;
                    em_metadata := metadata; em_success := true |}))
    (fun _ => ret (500, not_stored "" "" ∅)).

(** One turn of the loop of [POST /embed/batch], lines 112-153: what is pushed
    onto [results] for [request]. *)
Definition batch_item (request : EmbeddingRequest) : Js EmbeddingResponse :=
  try_catch
    (if all_blank (er_text request) then ret (not_stored (or_else (er_id request) "") "" ∅)
     else
       let! embedding := generateEmbedding (er_text request) in
       let! recordId :=
         storeVector {| vr_id := truthy (er_id request); vr_text := er_text request;
                        vr_embedding := embedding; vr_metadata := er_metadata request |} in
       ret {| em_id := recordId; em_text := er_text request; em_embedding := embedding;
              em_metadata := er_metadata request; em_success := true |})
    (fun _ =>
       ret (not_stored (or_else (er_id request) "") (er_text request)
              (default ∅ (er_metadata request)))).

Record BatchResponse := {
  bt_results : list EmbeddingResponse;
  bt_success : bool;
  bt_message : option string;
  bt_processed : option nat;
}.

(** The handler of [POST /embed/batch], lines 95-170. *)
Definition post_embed_batch (requests : list EmbeddingRequest) : Js (nat * BatchResponse) :=
  try_catch
    (match requests with
     | [] =>
         ret (400, {| bt_results := []; bt_success := false;
                      bt_message := Some "Invalid batch request: expected non-empty array";
                      bt_processed := None |})
     | _ =>
         let! results := mapM batch_item requests in
         ret (201, {| bt_results := results; bt_success := true; bt_message := None;
                      bt_processed := Some (List.length results) |})
     end)
    (fun _ =>
       ret (500, {| bt_results := []; bt_success := false;
                    bt_message := Some "Internal server error"; bt_processed := None |})).

(** The body of the replies of [GET /embed/:id] and [DELETE /embed/:id]: the
    record with [success: true], or [success] and a message. *)
Inductive ItemReply :=
| ItemFound (record : VectorRecord)
| ItemMessage (success : bool) (message : string).

(** The handler of [GET /embed/:id], lines 186-216. *)
Definition get_embed (id : string) : Js (nat * ItemReply) :=
  try_catch
    (let! record := getVector id in
     match record with
     | None => ret (404, ItemMessage false "Vector not found")
     | Some record => ret (200, ItemFound record)
     end)
    (fun _ => ret (500, ItemMessage false "Internal server error")).

(** The handler of [DELETE /embed/:id], lines 228-255. *)
Definition delete_embed (id : string) : Js (nat * ItemReply) :=
  try_catch
    (let! success := deleteVector id in
     if success then ret (200, ItemMessage true ("Vector " +:+ id +:+ " deleted successfully"))
     else ret (404, ItemMessage false "Vector not found"))
    (fun _ => ret (500, ItemMessage false "Internal server error")).

(** ** Loading the model ([EmbeddingService.initialize], [isInitialized]) *)

(** The process: the world, and the environment variable
    [NODE_TLS_REJECT_UNAUTHORIZED]. *)
Record Process := {
  proc_world : World;
  tls_reject_unauthorized : option string;
}.

Definition loaded (pipeline : string -> Outcome PipelineOutput) (w : World) : World :=
  {| points := points w; requests := requests w; faults := faults w; draws := draws w;
     entropy := entropy w; clock := clock w; embedder := Some pipeline; embedded := embedded w |}.

(** [initialize()], lines 23-57. [local] and [remote] are what the two calls of
    [pipeline('feature-extraction', ...)] come to: the model found under
    [localModelPath], and the model fetched by name. *)
Definition embedding_initialize (local remote : Outcome (string -> Outcome PipelineOutput))
    (p : Process) : Outcome unit * Process :=
  match local with
  | Returned pipeline =>
      (Returned tt, {| proc_world := loaded pipeline (proc_world p);
                       tls_reject_unauthorized := tls_reject_unauthorized p |})
  | Thrown _ =>
      match remote with
      | Returned pipeline =>
          (Returned tt, {| proc_world := loaded pipeline (proc_world p);
                           tls_reject_unauthorized := Some "0" |})
      | Thrown message =>
          (Thrown ("Failed to initialize embedding model: " +:+ message),
           {| proc_world := proc_world p; tls_reject_unauthorized := Some "0" |})
      end
  end.

(** [isInitialized()], lines 130-132. *)
Definition isInitialized (w : World) : bool :=
  match embedder w with
  | Some _ => true
  | None => false
  end.

(** ** Administration of the collection ([initialize], [getStats], [healthCheck])

    These methods use three calls of the Qdrant client that the methods above
    do not: [getCollections], [createCollection] and [getCollection]. They are
    taken as parameters: any computation that returns or throws. *)

Definition collectionName : string := "drab_embeddings".

Record CollectionInfo := {
  points_count : option nat;
  ci_status : string;
  ci_config : string;
}.

Record Stats := {
  st_collection : string;
  st_vectorsCount : nat;
  st_status : string;
  st_config : string;
}.

Inductive StatsReply :=
| StatsOk (stats : Stats)
| StatsFailed (message : string).

Record Health := {
  h_healthy : bool;
  h_vectorDatabase : option bool;
  h_embeddingModel : option bool;
  h_error : option string;
  h_timestamp : N;
}.

Section Administration.

(** [getCollections()] answers with the names of the collections, when the
    reply has a [collections] field. *)
Variable getCollections : Js (option (list string)).
(** [createCollection(name, { vectors: { size, distance }, ... })] *)
Variable createCollection : string -> nat -> string -> Js unit.
Variable getCollection : string -> Js CollectionInfo.

(** [VectorService.initialize()], lines 27-69. *)
Definition vector_initialize : Js unit :=
  try_catch
    (let! collections := getCollections in
     let collectionExists :=
       match collections with
       | Some cols => List.existsb (fun name => String.eqb name collectionName) cols
       | None => false
       end in
     let! _ :=
       if negb collectionExists then createCollection collectionName vectorSize "Cosine"
       else ret tt in
     let! info := getCollection collectionName in
     ret tt)
    (fun message => throw ("Failed to initialize vector database: " +:+ message)).

(** [getStats()], lines 390-407. *)
Definition getStats : Js Stats :=
  try_catch
    (let! info := getCollection collectionName in
     ret {| st_collection := collectionName;
            st_vectorsCount := default 0 (points_count info);
            st_status := ci_status info;
            st_config := ci_config info |})
    (fun message => throw ("Failed to get collection stats: " +:+ message)).

(** [healthCheck()], lines 412-420. *)
Definition healthCheck : Js bool :=
  try_catch
    (let! _ := getCollections in
     ret true)
    (fun _ => ret false).

(** The handler of [GET /query/stats], lines 149-167. *)
Definition get_stats : Js (nat * StatsReply) :=
  try_catch
    (let! stats := getStats in
     ret (200, StatsOk stats))
    (fun _ => ret (500, StatsFailed "Failed to get database statistics")).

(** The handler of [GET /query/health], lines 171-199. *)
Definition get_health : Js (nat * Health) :=
  try_catch
    (let! vectorHealthy := healthCheck in
     let! embeddingHealthy := (fun w => (Returned (isInitialized w), w)) in
     let isHealthy := vectorHealthy && embeddingHealthy in
     let! date := now in
     ret (if isHealthy then 200 else 503,
          {| h_healthy := isHealthy; h_vectorDatabase := Some vectorHealthy;
             h_embeddingModel := Some embeddingHealthy; h_error := None;
             h_timestamp := date |}))
    (fun _ =>
       let! date := now in
       ret (503, {| h_healthy := false; h_vectorDatabase := None; h_embeddingModel := None;
                    h_error := Some "Health check failed"; h_timestamp := date |})).

End Administration.

(** ** Further sample worlds and predicates *)

(** A collection holding one point that was not written by [storeVector]: it
    records the original id [doc_001] but sits under another key. *)
Definition legacy_world : World :=
  with_points {[ "0f8fad5b-d9cb-469f-a165-70867728950e" :=
                   pointOf doc_001 "0f8fad5b-d9cb-469f-a165-70867728950e" 0 ]} quiet_world.

(** A world whose store refuses every request. *)
Definition offline_world : World :=
  {| points := points legacy_world; requests := []; faults := fun _ => Some "fetch failed";
     draws := 0; entropy := fun n => N.of_nat n; clock := 0; embedder := None; embedded := [] |}.

(** A world whose store refuses the first request and answers the later ones. *)
Definition flaky_world : World :=
  {| points := points legacy_world; requests := [];
     faults := fun n => match n with O => Some "fetch failed" | S _ => None end;
     draws := 0; entropy := fun n => N.of_nat n; clock := 0; embedder := None; embedded := [] |}.

(** Every point sits under its own id. *)
Definition self_keyed (m : gmap string Point) : Prop :=
  forall (k : string) (p : Point), m !! k = Some p -> pt_id p = k.


(** The store and the clock of [w'] are those of [w]. *)
Definition same_store (w w' : World) : Prop :=
  points w' = points w /\ requests w' = requests w /\ faults w' = faults w /\ clock w' = clock w.

(** A pipeline that answers a tensor for every text but [boom], on which it
    throws, and a world in which it is loaded. *)
Definition sample_pipeline (text : string) : Outcome PipelineOutput :=
  if String.eqb text "boom" then Thrown "out of memory" else Returned (TensorLike unit_vector).

Definition ready_world : World := loaded sample_pipeline quiet_world.


(** * Properties *)

(** ** Sample runs of the primitives *)

(** The FIPS 180-4 test vector for the message [abc]. *)
Example sha256_abc :
  sha256_hex "abc" = "ba7816bf8f01cfea414140de5dae2223b00361a396177a9cb410ff61f20015ad".
Proof. vm_compute. reflexivity. Qed.

(** A message whose padding spills into a second block. *)
Example sha256_two_blocks :
  sha256_hex "abcdbcdecdefdefgefghfghighijhijkijkljklmklmnlmnomnopnopq"
  = "248d6a61d20638b8e5c026930c3e6039a33ce45964ff2167f6ecedd419db06c1".
Proof. vm_compute. reflexivity. Qed.

Example uuid_pattern_samples :
  uuidRegex_test "899c9194-ab2e-428b-8920-fb6c3b0edf72" = true /\
  uuidRegex_test "899C9194-AB2E-428B-B920-FB6C3B0EDF72" = true /\
  uuidRegex_test "899c9194-ab2e-628b-8920-fb6c3b0edf72" = false /\
  uuidRegex_test "899c9194-ab2e-428b-c920-fb6c3b0edf72" = false /\
  uuidRegex_test "899c9194-ab2e-428b-8920-fb6c3b0edf72 " = false /\
  uuidRegex_test "doc_001" = false.
Proof. vm_compute. repeat split. Qed.

Example clamp_samples :
  Math_min 500 100 = 100%float /\ Math_max (-1) 0 = 0%float /\
  Math_min 5 100 = 5%float /\ Math_max 0.5 0 = 0.5%float.
Proof. vm_compute. repeat split. Qed.

(** [substring(0, n)] counts code units: two for a character beyond U+FFFF,
    which it can cut in two (the bytes [ED A0 BD] stand for the high surrogate
    U+D83D). *)
Example js_substring_0_samples :
  js_substring_0 100 "short" = "short" /\
  js_substring_0 2 "héllo" = "hé" /\
  js_substring_0 2 "€uro" = "€u" /\
  js_substring_0 3 "a😀b" = "a😀" /\
  js_substring_0 2 "a😀b"
  = String "a" (String (ascii_of_N 0xED) (String (ascii_of_N 0xA0) (String (ascii_of_N 0xBD) ""))).
Proof. vm_compute. repeat split. Qed.

Lemma utf16_prefix_ascii (s : string) :
  forall n : nat,
    ascii_text s = true -> utf16_prefix n 0 s = substring 0 (Nat.min n (String.length s)) s.
Proof.
  induction s as [|c rest IH]; intros n Hascii.
  - destruct n; reflexivity.
  - cbn [ascii_text] in Hascii. apply andb_true_iff in Hascii as [Hc Hrest].
    destruct n as [|n]; [reflexivity|].
    cbn [utf16_prefix]. rewrite Hc, (IH n Hrest). reflexivity.
Qed.

(** On an ASCII text, bytes and code units are the same. *)
Lemma js_substring_0_ascii (n : nat) (s : string) :
  ascii_text s = true -> js_substring_0 n s = js_substring 0 n s.
Proof.
  intros Hascii. unfold js_substring_0, js_substring.
  rewrite (utf16_prefix_ascii s n Hascii).
  cbn [Nat.min Nat.max]. rewrite Nat.sub_0_r. reflexivity.
Qed.

(** ** The pattern matcher *)

Lemma matches_app (p1 : list CharClass) :
  forall (s1 : string) (p2 : list CharClass) (s2 : string),
    matches p1 s1 = true -> matches p2 s2 = true -> matches (p1 ++ p2) (s1 +:+ s2) = true.
Proof.
  induction p1 as [|k p1 IH]; intros [|c s1] p2 s2 H1 H2; simpl in *; try discriminate; auto.
  apply andb_true_iff in H1 as [Hc H1]. rewrite Hc. simpl. auto.
Qed.

Lemma matches_length (p : list CharClass) :
  forall s : string, matches p s = true -> String.length s = List.length p.
Proof.
  induction p as [|k p IH]; intros [|c s] H; simpl in *; try discriminate; auto.
  apply andb_true_iff in H as [_ H]. f_equal. auto.
Qed.

Lemma matches_substring (k : CharClass) :
  forall (m : nat) (h : string) (i n : nat),
    matches (List.repeat k m) h = true -> i + n <= m ->
    matches (List.repeat k n) (substring i n h) = true.
Proof.
  induction m as [|m IH]; intros [|c h] i n H Hle; simpl in H; try discriminate.
  - assert (i = 0) by lia. assert (n = 0) by lia. subst. reflexivity.
  - apply andb_true_iff in H as [Hc H].
    destruct i as [|i].
    + destruct n as [|n]; [reflexivity|].
      simpl. rewrite Hc. simpl. apply (IH h 0 n H). lia.
    + simpl. apply (IH h i n H). lia.
Qed.

Lemma js_substring_inside (a b : nat) (s : string) :
  a <= b -> b <= String.length s -> js_substring a b s = substring a (b - a) s.
Proof.
  intros Hab Hb. unfold js_substring.
  rewrite (Nat.min_l a) by lia. rewrite (Nat.min_l b) by lia.
  rewrite Nat.min_l by lia. rewrite Nat.max_r by lia. reflexivity.
Qed.

(** Bounded case analysis on a number. *)
Lemma N_below (P : N -> bool) (n : nat) :
  forallb P (List.map N.of_nat (List.seq 0 n)) = true ->
  forall x : N, (x < N.of_nat n)%N -> P x = true.
Proof.
  intros H x Hx. rewrite forallb_forall in H. apply H.
  apply in_map_iff. exists (N.to_nat x). split; [apply N2Nat.id|].
  apply in_seq. lia.
Qed.

Lemma hexdigit_class (d : N) : in_class HexDigit (hexdigit (d mod 16)) = true.
Proof.
  apply (N_below (fun x => in_class HexDigit (hexdigit x)) 16); [vm_compute; reflexivity|].
  apply N.mod_lt. discriminate.
Qed.

Lemma hex_matches (n : nat) (x : N) : matches (List.repeat HexDigit n) (hex n x) = true.
Proof.
  induction n as [|n IH]; [reflexivity|].
  cbn [hex List.repeat matches]. rewrite hexdigit_class. exact IH.
Qed.

Lemma digest_hex_matches (s : Sha256.state) :
  matches (List.repeat HexDigit 64) (digest_hex s) = true.
Proof.
  unfold digest_hex.
  change (List.repeat HexDigit 64) with
    (List.repeat HexDigit 8 ++ List.repeat HexDigit 8 ++ List.repeat HexDigit 8 ++ List.repeat HexDigit 8 ++
     List.repeat HexDigit 8 ++ List.repeat HexDigit 8 ++ List.repeat HexDigit 8 ++ List.repeat HexDigit 8)%list.
  repeat (apply matches_app; [apply hex_matches|]). apply hex_matches.
Qed.

Lemma sha256_hex_matches (s : string) : matches (List.repeat HexDigit 64) (sha256_hex s) = true.
Proof. apply digest_hex_matches. Qed.

Lemma sha256_hex_length (s : string) : String.length (sha256_hex s) = 64.
Proof. rewrite (matches_length _ _ (sha256_hex_matches s)). apply repeat_length. Qed.

Lemma digest_slice (s : string) (a b : nat) :
  a <= b -> b <= 64 -> matches (List.repeat HexDigit (b - a)) (js_substring a b (sha256_hex s)) = true.
Proof.
  intros Hab Hb. rewrite js_substring_inside; [|exact Hab|rewrite sha256_hex_length; exact Hb].
  apply (matches_substring HexDigit 64); [apply sha256_hex_matches|lia].
Qed.

(** ** The format of the keys *)

Lemma uuid_groups (a b c d e : string) :
  matches (List.repeat HexDigit 8) a = true ->
  matches (List.repeat HexDigit 4) b = true ->
  matches (Version :: List.repeat HexDigit 3) c = true ->
  matches (Variant :: List.repeat HexDigit 3) d = true ->
  matches (List.repeat HexDigit 12) e = true ->
  uuidRegex_test (join_dash [a; b; c; d; e]) = true.
Proof.
  intros Ha Hb Hc Hd He. unfold uuidRegex_test.
  change uuidRegex with
    (List.repeat HexDigit 8 ++ [Dash] ++ List.repeat HexDigit 4 ++ [Dash] ++
     (Version :: List.repeat HexDigit 3) ++ [Dash] ++
     (Variant :: List.repeat HexDigit 3) ++ [Dash] ++ List.repeat HexDigit 12)%list.
  cbn [join_dash].
  repeat (apply matches_app; [assumption || reflexivity|]). assumption.
Qed.

Lemma land_below (x : N) (n : N) : (N.land x (N.ones n) < 2 ^ n)%N.
Proof. rewrite N.land_ones. apply N.mod_lt. apply N.pow_nonzero. discriminate. Qed.

Lemma variant_digit (o : option N) :
  matches [Variant] (toString16 (N.lor (js_and o 0x3) 0x8)) = true.
Proof.
  unfold js_and.
  apply (N_below (fun y => matches [Variant] (toString16 (N.lor y 0x8))) 4); [vm_compute; reflexivity|].
  apply (land_below _ 2).
Qed.

Lemma hashedKey_format (customId : string) : uuidRegex_test (hashedKey customId) = true.
Proof.
  unfold hashedKey. cbv zeta. apply uuid_groups.
  - apply (digest_slice customId 0 8); lia.
  - apply (digest_slice customId 8 12); lia.
  - apply (matches_app [Version] "4" (List.repeat HexDigit 3)); [reflexivity|].
    apply (digest_slice customId 13 16); lia.
  - apply (matches_app [Variant] _ (List.repeat HexDigit 3)); [apply variant_digit|].
    apply (digest_slice customId 17 20); lia.
  - apply (digest_slice customId 20 32); lia.
Qed.

Lemma version_byte (y : N) :
  matches [Version; HexDigit] (hex 2 (N.lor (N.land y 0x0f) 0x40)) = true.
Proof.
  apply (N_below (fun z => matches [Version; HexDigit] (hex 2 (N.lor z 0x40))) 16);
    [vm_compute; reflexivity|].
  apply (land_below _ 4).
Qed.

Lemma variant_byte (y : N) :
  matches [Variant; HexDigit] (hex 2 (N.lor (N.land y 0x3f) 0x80)) = true.
Proof.
  apply (N_below (fun z => matches [Variant; HexDigit] (hex 2 (N.lor z 0x80))) 64);
    [vm_compute; reflexivity|].
  apply (land_below _ 6).
Qed.

Lemma uuid_of_bits_format (x : N) : uuidRegex_test (uuid_of_bits x) = true.
Proof.
  unfold uuid_of_bits. cbv zeta. apply uuid_groups.
  - change (List.repeat HexDigit 8) with
      (List.repeat HexDigit 2 ++ List.repeat HexDigit 2 ++ List.repeat HexDigit 2 ++ List.repeat HexDigit 2)%list.
    repeat (apply matches_app; [apply hex_matches|]). apply hex_matches.
  - change (List.repeat HexDigit 4) with (List.repeat HexDigit 2 ++ List.repeat HexDigit 2)%list.
    apply matches_app; apply hex_matches.
  - apply (matches_app [Version; HexDigit] _ (List.repeat HexDigit 2));
      [apply version_byte|apply hex_matches].
  - apply (matches_app [Variant; HexDigit] _ (List.repeat HexDigit 2));
      [apply variant_byte|apply hex_matches].
  - change (List.repeat HexDigit 12) with
      (List.repeat HexDigit 2 ++ List.repeat HexDigit 2 ++ List.repeat HexDigit 2 ++
       List.repeat HexDigit 2 ++ List.repeat HexDigit 2 ++ List.repeat HexDigit 2)%list.
    repeat (apply matches_app; [apply hex_matches|]). apply hex_matches.
Qed.

Lemma uuid_format_truthy (s : string) : uuidRegex_test s = true -> truthy (Some s) = Some s.
Proof. destruct s; [discriminate|reflexivity]. Qed.

Lemma storageKey_format (customId : string) : uuidRegex_test (storageKey customId) = true.
Proof.
  unfold storageKey. destruct (uuidRegex_test customId) eqn:E; [exact E|apply hashedKey_format].
Qed.

(** ** [convertToValidId] *)

Lemma convertToValidId_given (customId : string) (w : World) :
  customId <> "" -> convertToValidId (Some customId) w = (Returned (storageKey customId), w).
Proof.
  intros Hne. unfold convertToValidId, storageKey, hashedKey.
  destruct customId as [|c s]; [congruence|]. cbn [truthy].
  destruct (uuidRegex_test (String c s)); reflexivity.
Qed.

Lemma convertToValidId_absent (customId : option string) (w : World) :
  truthy customId = None ->
  convertToValidId customId w = (Returned (uuid_of_bits (entropy w (draws w))), drawn w).
Proof. intros H. unfold convertToValidId. rewrite H. reflexivity. Qed.

Lemma convertToValidId_uuid (key : string) (w : World) :
  uuidRegex_test key = true -> convertToValidId (Some key) w = (Returned key, w).
Proof.
  intros H. unfold convertToValidId. rewrite (uuid_format_truthy key H), H. reflexivity.
Qed.

Lemma convertToValidId_eq (customId : option string) (w : World) :
  convertToValidId customId w = (Returned (keyOf customId w), afterKey customId w).
Proof.
  unfold convertToValidId, keyOf, afterKey, storageKey, hashedKey.
  destruct (truthy customId) as [s|]; [|reflexivity].
  destruct (uuidRegex_test s); reflexivity.
Qed.

Lemma keyOf_format (customId : option string) (w : World) :
  uuidRegex_test (keyOf customId w) = true.
Proof.
  unfold keyOf. destruct (truthy customId); [apply storageKey_format|apply uuid_of_bits_format].
Qed.

Lemma afterKey_store (customId : option string) (w : World) :
  points (afterKey customId w) = points w /\ requests (afterKey customId w) = requests w /\
  faults (afterKey customId w) = faults w /\ clock (afterKey customId w) = clock w.
Proof. unfold afterKey. destruct (truthy customId); repeat split. Qed.

(** C2 (as amended): [convertToValidId] is a pure function of a non-empty id.
    Whatever the world, it returns the same key and leaves the world as it was
    (no request is sent, no random value is drawn); an id that already matches
    the UUID pattern is returned unchanged. *)
Theorem convertToValidId_deterministic (id : string) :
  id <> "" ->
  exists key : string,
    (forall w : World, convertToValidId (Some id) w = (Returned key, w)) /\
    (uuidRegex_test id = true -> key = id).
Proof.
  intros Hne. exists (storageKey id). split.
  - intros w. apply convertToValidId_given. exact Hne.
  - intros H. unfold storageKey. rewrite H. reflexivity.
Qed.

Lemma convertToValidId_deterministic_witness :
  (exists key : string,
     (forall w : World, convertToValidId (Some "doc_001") w = (Returned key, w)) /\
     (uuidRegex_test "doc_001" = true -> key = "doc_001")) /\
  (exists key : string,
     (forall w : World,
        convertToValidId (Some "550e8400-e29b-41d4-a716-446655440000") w = (Returned key, w)) /\
     (uuidRegex_test "550e8400-e29b-41d4-a716-446655440000" = true ->
      key = "550e8400-e29b-41d4-a716-446655440000")).
Proof.
  split.
  - apply (convertToValidId_deterministic "doc_001"). discriminate.
  - apply (convertToValidId_deterministic "550e8400-e29b-41d4-a716-446655440000"). discriminate.
Defined.

(** C2 as stated fails at the empty string: [!customId] holds for [""], so the
    key is a fresh random UUID and two calls in a row return different keys. *)
Lemma convertToValidId_empty_id_varies :
  ~ (forall (id : string) (w : World),
       fst (convertToValidId (Some id) (snd (convertToValidId (Some id) w)))
       = fst (convertToValidId (Some id) w)).
Proof.
  intros H. specialize (H "" quiet_world). vm_compute in H. discriminate H.
Qed.

Example convertToValidId_doc_001 (w : World) :
  convertToValidId (Some "doc_001") w = (Returned "899c9194-ab2e-428b-8920-fb6c3b0edf72", w).
Proof. rewrite convertToValidId_given by discriminate. vm_compute storageKey. reflexivity. Qed.

(** C8: key derivation is idempotent. Whatever the id (absent, empty, native or
    not), the key [convertToValidId] returns matches the UUID pattern, and
    [convertToValidId] applied to that key returns it unchanged, in any world and
    without touching it. For a non-empty id, deriving from the key is the same
    computation as deriving from the id. *)
Theorem convertToValidId_idempotent (customId : option string) (w : World) :
  exists (key : string) (w1 : World),
    convertToValidId customId w = (Returned key, w1) /\
    uuidRegex_test key = true /\
    (forall w2 : World, convertToValidId (Some key) w2 = (Returned key, w2)) /\
    (forall id : string, customId = Some id -> id <> "" ->
     forall w2 : World, convertToValidId (Some key) w2 = convertToValidId (Some id) w2).
Proof.
  exists (keyOf customId w), (afterKey customId w).
  split; [apply convertToValidId_eq|].
  split; [apply keyOf_format|].
  split.
  - intros w2. apply convertToValidId_uuid. apply keyOf_format.
  - intros id Hid Hne w2. subst customId.
    rewrite (convertToValidId_given id w2 Hne).
    rewrite convertToValidId_uuid by apply keyOf_format.
    unfold keyOf. destruct id; [congruence|reflexivity].
Qed.

(** The key of a non-native id is the reformatted hash, and deriving again
    gives the same key. *)
Lemma hashedKey_fixpoint (id : string) (w : World) :
  id <> "" -> uuidRegex_test id = false ->
  convertToValidId (Some id) w = (Returned (hashedKey id), w) /\
  convertToValidId (Some (hashedKey id)) w = (Returned (hashedKey id), w).
Proof.
  intros Hne Hno. split.
  - rewrite convertToValidId_given by exact Hne. unfold storageKey. rewrite Hno. reflexivity.
  - apply convertToValidId_uuid, hashedKey_format.
Qed.

(** ** [storeVector] and [storeVectors]: the dimension check *)

Lemma storeVector_rejected (record : VectorRecord) (w : World) :
  List.length (vr_embedding record) <> 384 ->
  storeVector record w =
    (Thrown ("Failed to store vector: Embedding dimension mismatch. Expected 384, got "
               +:+ decimal (List.length (vr_embedding record))),
     afterKey (vr_id record) w).
Proof.
  intros Hlen. unfold storeVector, try_catch, bind. rewrite convertToValidId_eq.
  apply Nat.eqb_neq in Hlen. unfold vectorSize. rewrite Hlen. reflexivity.
Qed.

(** C1: a record whose embedding does not have 384 components makes
    [storeVector] throw the dimension-mismatch error, which names the expected
    and the actual length, before any request reaches the store: the log of
    requests and the collection are as before. Hence [storeVector] returns only
    for an embedding of length 384. *)
Theorem storeVector_dimension_mismatch (record : VectorRecord) (w : World) :
  (List.length (vr_embedding record) <> 384 ->
   exists w' : World,
     storeVector record w =
       (Thrown ("Failed to store vector: Embedding dimension mismatch. Expected 384, got "
                  +:+ decimal (List.length (vr_embedding record))), w') /\
     requests w' = requests w /\ points w' = points w) /\
  (forall (id : string) (w' : World),
     storeVector record w = (Returned id, w') -> List.length (vr_embedding record) = 384).
Proof.
  split.
  - intros Hlen. exists (afterKey (vr_id record) w).
    destruct (afterKey_store (vr_id record) w) as (Hp & Hr & _).
    split; [apply storeVector_rejected; exact Hlen|split; assumption].
  - intros id w' Hret.
    destruct (Nat.eq_dec (List.length (vr_embedding record)) 384) as [E|E]; [exact E|].
    rewrite (storeVector_rejected record w E) in Hret. discriminate Hret.
Qed.

Lemma storeVector_dimension_mismatch_witness :
  exists w' : World,
    storeVector {| vr_id := Some "doc_001"; vr_text := "t"; vr_embedding := [1%float; 2%float];
                   vr_metadata := None |} quiet_world =
      (Thrown "Failed to store vector: Embedding dimension mismatch. Expected 384, got 2", w') /\
    requests w' = [] /\ points w' = ∅.
Proof.
  apply (proj1 (storeVector_dimension_mismatch
                  {| vr_id := Some "doc_001"; vr_text := "t"; vr_embedding := [1%float; 2%float];
                     vr_metadata := None |} quiet_world)).
  simpl. lia.
Defined.

Lemma batch_point_good (record : VectorRecord) (w : World) :
  List.length (vr_embedding record) = 384 ->
  exists (p : Point) (w1 : World),
    batch_point record w = (Returned p, w1) /\
    points w1 = points w /\ requests w1 = requests w /\
    original_id (pt_payload p) = None /\
    pt_id p = or_else (vr_id record) (uuid_of_bits (entropy w (draws w))).
Proof.
  intros Hlen. unfold batch_point, bind, or_else.
  destruct (truthy (vr_id record)) as [id|]; cbn [ret uuidv4 default];
    unfold vectorSize; rewrite Hlen; cbn [Nat.eqb negb now ret];
    eexists; eexists; repeat split.
Qed.

Lemma batch_point_bad (record : VectorRecord) (w : World) :
  List.length (vr_embedding record) <> 384 ->
  exists (id : string) (w1 : World),
    batch_point record w =
      (Thrown (batch_dimension_mismatch id (List.length (vr_embedding record))), w1) /\
    points w1 = points w /\ requests w1 = requests w.
Proof.
  intros Hlen. apply Nat.eqb_neq in Hlen. unfold batch_point, bind.
  destruct (truthy (vr_id record)) as [id|]; cbn [ret uuidv4];
    unfold vectorSize; rewrite Hlen; cbn [negb throw];
    eexists; eexists; repeat split.
Qed.

Lemma mapM_batch_point_bad (records : list VectorRecord) :
  List.Exists (fun record => List.length (vr_embedding record) <> 384) records ->
  forall w : World,
  exists (id : string) (n : nat) (w1 : World),
    mapM batch_point records w = (Thrown (batch_dimension_mismatch id n), w1) /\
    n <> 384 /\ points w1 = points w /\ requests w1 = requests w.
Proof.
  induction records as [|record records IH]; intros Hex w.
  - inversion Hex.
  - cbn [mapM]. unfold bind at 1.
    destruct (Nat.eq_dec (List.length (vr_embedding record)) 384) as [Hgood|Hbad].
    + destruct (batch_point_good record w Hgood) as (p & w1 & Hp & Hpts & Hreq & _).
      rewrite Hp.
      assert (Hrest : List.Exists (fun r => List.length (vr_embedding r) <> 384) records).
      { inversion Hex as [? ? Hhere|? ? Hlater]; subst; [contradiction|exact Hlater]. }
      destruct (IH Hrest w1) as (id & n & w2 & Hthrow & Hn & Hpts2 & Hreq2).
      exists id, n, w2. unfold bind. rewrite Hthrow.
      repeat split; [exact Hn|congruence|congruence].
    + destruct (batch_point_bad record w Hbad) as (id & w1 & Hthrow & Hpts & Hreq).
      rewrite Hthrow. exists id, (List.length (vr_embedding record)), w1.
      repeat split; assumption.
Qed.

(** C9: if some record of the batch has an embedding whose length is not 384,
    [storeVectors] throws a dimension-mismatch error for the batch as a whole
    and sends nothing to the store: the log of requests and the collection are
    as before the call. *)
Theorem storeVectors_all_or_nothing (records : list VectorRecord) (w : World) :
  List.Exists (fun record => List.length (vr_embedding record) <> 384) records ->
  exists (id : string) (n : nat) (w' : World),
    storeVectors records w =
      (Thrown ("Failed to store vectors: Embedding dimension mismatch for record " +:+ id
                 +:+ ". Expected 384, got " +:+ decimal n), w') /\
    n <> 384 /\ requests w' = requests w /\ points w' = points w.
Proof.
  intros Hex.
  destruct (mapM_batch_point_bad records Hex w) as (id & n & w1 & Hthrow & Hn & Hpts & Hreq).
  exists id, n, w1. unfold storeVectors, try_catch, bind. rewrite Hthrow.
  repeat split; assumption.
Qed.

Lemma storeVectors_all_or_nothing_witness :
  exists (id : string) (n : nat) (w' : World),
    storeVectors [doc_001; {| vr_id := Some "doc_002"; vr_text := "Unrelated text";
                              vr_embedding := [1%float]; vr_metadata := None |}] quiet_world =
      (Thrown ("Failed to store vectors: Embedding dimension mismatch for record " +:+ id
                 +:+ ". Expected 384, got " +:+ decimal n), w') /\
    n <> 384 /\ requests w' = requests quiet_world /\ points w' = points quiet_world.
Proof.
  apply (storeVectors_all_or_nothing
           [doc_001; {| vr_id := Some "doc_002"; vr_text := "Unrelated text";
                        vr_embedding := [1%float]; vr_metadata := None |}] quiet_world).
  apply List.Exists_cons_tl, List.Exists_cons_hd. simpl. lia.
Defined.

(** ** [generateEmbeddings] *)

(** C10: on an empty list of texts [generateEmbeddings] does not return the
    empty list; it throws [Input texts array cannot be empty], whether or not
    the model is loaded, and the world is untouched: the pipeline is not run. *)
Theorem generateEmbeddings_empty (w : World) :
  generateEmbeddings [] w = (Thrown "Input texts array cannot be empty", w).
Proof. reflexivity. Qed.

(** ** Requests the store answers *)

Lemma request_answered {A : Type} (r : Request)
    (serve : gmap string Point -> A * gmap string Point) (w : World) :
  faults w (List.length (requests w)) = None ->
  request r serve w =
    (Returned (fst (serve (points w))), with_points (snd (serve (points w))) (sent r w)).
Proof. intros H. unfold request. rewrite H. destruct (serve (points w)). reflexivity. Qed.

Lemma request_refused {A : Type} (r : Request)
    (serve : gmap string Point -> A * gmap string Point) (w : World) (message : string) :
  faults w (List.length (requests w)) = Some message ->
  request r serve w = (Thrown message, sent r w).
Proof. intros H. unfold request. rewrite H. reflexivity. Qed.

(** ** The search handlers clamp *)

Lemma SFeqb_finite_refl (b : bool) (m : positive) (e : Z) :
  SFeqb (S754_finite b m e) (S754_finite b m e) = true.
Proof.
  unfold SFeqb, SFcompare. rewrite Z.compare_refl, Pos.compare_cont_refl.
  destruct b; reflexivity.
Qed.

(** [Math.min(x, 100)] is 100 for every number [x >= 100], infinity included. *)
Lemma Math_min_ceiling (x : float) : (100 <=? x)%float = true -> Math_min x 100 = 100%float.
Proof.
  intros H. rewrite FloatAxioms.leb_spec in H.
  pose proof (SF2Prim_Prim2SF x) as Hx.
  remember (Prim2SF 100) as c eqn:Hc. vm_compute in Hc. subst c.
  destruct (Prim2SF x) as [b|b| |b m e] eqn:E.
  - destruct b; discriminate H.
  - destruct b; [discriminate H|]. rewrite <- Hx. vm_compute. reflexivity.
  - discriminate H.
  - destruct b; [discriminate H|].
    unfold Math_min, is_nan, is_zero.
    rewrite !FloatAxioms.eqb_spec, !FloatAxioms.ltb_spec, E, SFeqb_finite_refl.
    remember (Prim2SF 100) as c eqn:Hc. vm_compute in Hc. subst c.
    remember (Prim2SF zero) as z eqn:Hz. vm_compute in Hz. subst z.
    unfold SFleb, SFcompare in H. unfold SFltb, SFeqb, SFcompare.
    assert (Hm : Pos.compare_cont Eq m 7036874417766400
                 = CompOpp (Pos.compare_cont Eq 7036874417766400 m))
      by (rewrite Pos.compare_cont_antisym; reflexivity).
    rewrite Hm, (Z.compare_antisym (-46) e).
    destruct (-46 ?= e)%Z; cbn in H |- *; try discriminate H; try reflexivity.
    destruct (Pos.compare_cont Eq 7036874417766400 m); cbn in H |- *;
      try discriminate H; reflexivity.
Qed.

(** [Math.max(x, 0.0)] is 0 for every number [x <= 0], -0 and -infinity included. *)
Lemma Math_max_floor (x : float) : (x <=? 0)%float = true -> Math_max x 0 = 0%float.
Proof.
  intros H. rewrite FloatAxioms.leb_spec in H.
  pose proof (SF2Prim_Prim2SF x) as Hx.
  remember (Prim2SF 0) as z eqn:Hz. vm_compute in Hz. subst z.
  destruct (Prim2SF x) as [b|b| |b m e] eqn:E.
  - rewrite <- Hx. destruct b; vm_compute; reflexivity.
  - destruct b; [|discriminate H]. rewrite <- Hx. vm_compute. reflexivity.
  - discriminate H.
  - destruct b; [|discriminate H].
    unfold Math_max, is_nan, is_zero.
    rewrite !FloatAxioms.eqb_spec, !FloatAxioms.ltb_spec, E, SFeqb_finite_refl.
    remember (Prim2SF 0) as z eqn:Hz. vm_compute in Hz. subst z.
    remember (Prim2SF zero) as z eqn:Hz. vm_compute in Hz. subst z.
    reflexivity.
Qed.

Lemma SFeqb_refl (s : spec_float) : s <> S754_nan -> SFeqb s s = true.
Proof.
  destruct s as [b|b| |b m e]; intros H; try congruence.
  - reflexivity.
  - destruct b; reflexivity.
  - apply SFeqb_finite_refl.
Qed.

Lemma ltb_not_nan_l (x y : float) : (x <? y)%float = true -> is_nan x = false.
Proof.
  intros H. rewrite FloatAxioms.ltb_spec in H. unfold is_nan.
  rewrite FloatAxioms.eqb_spec, SFeqb_refl; [reflexivity|].
  intros Hnan. rewrite Hnan in H. discriminate H.
Qed.

Lemma ltb_not_nan_r (x y : float) : (x <? y)%float = true -> is_nan y = false.
Proof.
  intros H. rewrite FloatAxioms.ltb_spec in H. unfold is_nan.
  rewrite FloatAxioms.eqb_spec, SFeqb_refl; [reflexivity|].
  intros Hnan. rewrite Hnan in H. unfold SFltb, SFcompare in H.
  destruct (Prim2SF x); discriminate H.
Qed.

(** [Math.min(x, 100)] is [x] for every number [x < 100]. *)
Lemma Math_min_below (x : float) : (x <? 100)%float = true -> Math_min x 100 = x.
Proof.
  intros H. unfold Math_min. rewrite (ltb_not_nan_l x 100 H), H.
  assert (H1 : is_nan 100 = false) by (vm_compute; reflexivity).
  rewrite H1. reflexivity.
Qed.

(** [Math.max(x, 0.0)] is [x] for every number [x > 0]. *)
Lemma Math_max_above (x : float) : (0 <? x)%float = true -> Math_max x 0 = x.
Proof.
  intros H. unfold Math_max. rewrite (ltb_not_nan_r 0 x H), H.
  assert (H1 : is_nan 0 = false) by (vm_compute; reflexivity).
  rewrite H1. reflexivity.
Qed.

Lemma Math_min_choice (x y : float) : Math_min x y = nan \/ Math_min x y = x \/ Math_min x y = y.
Proof.
  unfold Math_min. destruct (is_nan x || is_nan y); [left; reflexivity|].
  destruct (x <? y)%float; [right; left; reflexivity|].
  destruct (y <? x)%float; [right; right; reflexivity|].
  destruct (is_zero x && get_sign x); [right; left|right; right]; reflexivity.
Qed.

Lemma Math_max_choice (x y : float) : Math_max x y = nan \/ Math_max x y = x \/ Math_max x y = y.
Proof.
  unfold Math_max. destruct (is_nan x || is_nan y); [left; reflexivity|].
  destruct (y <? x)%float; [right; left; reflexivity|].
  destruct (x <? y)%float; [right; right; reflexivity|].
  destruct (is_zero x && negb (get_sign x)); [right; left|right; right]; reflexivity.
Qed.

(** Clamping what is already clamped changes nothing. *)
Lemma Math_min_idempotent (x : float) : Math_min (Math_min x 100) 100 = Math_min x 100.
Proof.
  destruct (Math_min_choice x 100) as [H|[H|H]].
  - rewrite H. vm_compute. reflexivity.
  - rewrite H. exact H.
  - rewrite H. vm_compute. reflexivity.
Qed.

Lemma Math_max_idempotent (x : float) : Math_max (Math_max x 0) 0 = Math_max x 0.
Proof.
  destruct (Math_max_choice x 0) as [H|[H|H]].
  - rewrite H. vm_compute. reflexivity.
  - rewrite H. exact H.
  - rewrite H. vm_compute. reflexivity.
Qed.

(** C6: for a query vector of length 384, the search the handlers run corrects
    each of the two parameters on its own and never fails on account of their
    values. The service and the store receive a limit [l] and a threshold [t]:
    [l] is 100 when the limit is 100 or more and the limit itself when it is
    below 100; [t] is 0 when the threshold is 0 or less and the threshold itself
    when it is above 0. The search is the search with [l] and [t] in place of
    the limit and the threshold: same outcome, same world afterwards. When the
    store answers, it returns results, and the request the store received
    carries [l] and [t]. In particular a limit of 100 or more with a threshold
    of 0 or less (500 and -1, say) is the search with [limit = 100] and
    [threshold = 0.0]. *)
Theorem search_clamps (v : list float) (limit threshold : float) (w : World) :
  List.length v = 384 ->
  exists l t : float,
    ((100 <=? limit)%float = true -> l = 100%float) /\
    ((limit <? 100)%float = true -> l = limit) /\
    ((threshold <=? 0)%float = true -> t = 0%float) /\
    ((0 <? threshold)%float = true -> t = threshold) /\
    search v limit threshold w = searchSimilar v l t w /\
    search v limit threshold w = search v l t w /\
    (faults w (List.length (requests w)) = None ->
     exists (results : list QueryResult) (w' : World),
       search v limit threshold w = (Returned results, w') /\
       requests w' = Search v l t :: requests w) /\
    ((100 <=? limit)%float = true -> (threshold <=? 0)%float = true ->
     search v limit threshold w = search v 100 0 w).
Proof.
  intros Hlen. exists (Math_min limit 100), (Math_max threshold 0).
  split; [apply Math_min_ceiling|].
  split; [apply Math_min_below|].
  split; [apply Math_max_floor|].
  split; [apply Math_max_above|].
  split; [reflexivity|].
  split; [unfold search; rewrite Math_min_idempotent, Math_max_idempotent; reflexivity|].
  split.
  - intros Hok. unfold search, searchSimilar, try_catch, bind, vectorSize.
    rewrite Hlen. cbn [Nat.eqb negb]. unfold client_search.
    rewrite (request_answered _ _ w Hok). cbn [fst snd ret].
    eexists. eexists. split; reflexivity.
  - intros Hlimit Hthreshold.
    assert (Hmin : Math_min 100 100 = 100%float) by (vm_compute; reflexivity).
    assert (Hmax : Math_max 0 0 = 0%float) by (vm_compute; reflexivity).
    unfold search.
    rewrite (Math_min_ceiling limit Hlimit), (Math_max_floor threshold Hthreshold), Hmin, Hmax.
    reflexivity.
Qed.

Lemma search_clamps_witness :
  exists l t : float,
    ((100 <=? 500)%float = true -> l = 100%float) /\
    ((500 <? 100)%float = true -> l = 500%float) /\
    ((-1 <=? 0)%float = true -> t = 0%float) /\
    ((0 <? -1)%float = true -> t = (-1)%float) /\
    search unit_vector 500 (-1) quiet_world = searchSimilar unit_vector l t quiet_world /\
    search unit_vector 500 (-1) quiet_world = search unit_vector l t quiet_world /\
    (faults quiet_world (List.length (requests quiet_world)) = None ->
     exists (results : list QueryResult) (w' : World),
       search unit_vector 500 (-1) quiet_world = (Returned results, w') /\
       requests w' = Search unit_vector l t :: requests quiet_world) /\
    ((100 <=? 500)%float = true -> (-1 <=? 0)%float = true ->
     search unit_vector 500 (-1) quiet_world = search unit_vector 100 0 quiet_world).
Proof. apply (search_clamps unit_vector 500 (-1) quiet_world). reflexivity. Defined.

(** One parameter out of range, the other in range: each is corrected on its
    own. *)
Example search_clamps_one_parameter :
  requests (snd (search unit_vector 500 0.5 quiet_world)) = [Search unit_vector 100 0.5] /\
  requests (snd (search unit_vector 5 (-1) quiet_world)) = [Search unit_vector 5 0] /\
  requests (snd (search unit_vector 500 (-1) quiet_world)) = [Search unit_vector 100 0] /\
  requests (snd (search unit_vector 5 0.5 quiet_world)) = [Search unit_vector 5 0.5].
Proof. vm_compute. repeat split. Qed.

(** The same at the level of the two handlers. *)
Lemma post_query_clamps (text : string) (limit threshold : float) (w : World) :
  (100 <=? limit)%float = true ->
  (threshold <=? 0)%float = true ->
  post_query {| q_query := text; q_limit := Some limit; q_threshold := Some threshold |} w
  = post_query {| q_query := text; q_limit := Some 100%float; q_threshold := Some 0%float |} w.
Proof.
  intros Hlimit Hthreshold.
  assert (Hmin : Math_min 100 100 = 100%float) by (vm_compute; reflexivity).
  assert (Hmax : Math_max 0 0 = 0%float) by (vm_compute; reflexivity).
  unfold post_query, search. cbn [q_query q_limit q_threshold default from_option id].
  rewrite (Math_min_ceiling limit Hlimit), (Math_max_floor threshold Hthreshold), Hmin, Hmax.
  reflexivity.
Qed.

Lemma post_similar_clamps (id : string) (limit threshold : float) (w : World) :
  (100 <=? limit)%float = true ->
  (threshold <=? 0)%float = true ->
  post_similar id (Some limit) (Some threshold) w
  = post_similar id (Some 100%float) (Some 0%float) w.
Proof.
  intros Hlimit Hthreshold.
  assert (Hmin : Math_min 100 100 = 100%float) by (vm_compute; reflexivity).
  assert (Hmax : Math_max 0 0 = 0%float) by (vm_compute; reflexivity).
  unfold post_similar, search. cbn [default from_option Datatypes.id].
  rewrite (Math_min_ceiling limit Hlimit), (Math_max_floor threshold Hthreshold), Hmin, Hmax.
  reflexivity.
Qed.

(** The schema of the route, for its part, does not admit such a body. *)
Example query_body_schema_refuses :
  query_body_schema {| q_query := "sunlight"; q_limit := Some 500%float;
                       q_threshold := Some (-1)%float |} = false /\
  query_body_schema {| q_query := "sunlight"; q_limit := Some 100%float;
                       q_threshold := Some 0%float |} = true.
Proof. vm_compute. split; reflexivity. Qed.

(** ** Store, then get *)

Lemma storeVector_stored (record : VectorRecord) (w : World) :
  List.length (vr_embedding record) = 384 ->
  faults w (List.length (requests w)) = None ->
  storeVector record w =
    (Returned (or_else (vr_id record) (keyOf (vr_id record) w)),
     with_points
       (<[keyOf (vr_id record) w := pointOf record (keyOf (vr_id record) w) (clock w)]> (points w))
       (sent (Upsert [pointOf record (keyOf (vr_id record) w) (clock w)])
             (afterKey (vr_id record) w))).
Proof.
  intros Hlen Hok. unfold storeVector, try_catch, bind.
  rewrite convertToValidId_eq. unfold vectorSize. rewrite Hlen. cbn [Nat.eqb negb].
  unfold client_upsert, pointOf, now.
  destruct (afterKey_store (vr_id record) w) as (Hp & Hr & Hf & Hc).
  rewrite request_answered by (rewrite Hf, Hr; exact Hok).
  cbn [fst snd List.fold_left pt_id ret]. rewrite Hp, Hc. reflexivity.
Qed.

Lemma retrieve_one (m : gmap string Point) (key : string) :
  omap (fun k => m !! k) [key] = match m !! key with Some p => [p] | None => [] end.
Proof. reflexivity. Qed.

Lemma getVector_direct (id key : string) (p : Point) (w : World) :
  convertToValidId (Some id) w = (Returned key, w) ->
  points w !! key = Some p ->
  faults w (List.length (requests w)) = None ->
  getVector id w = (Returned (Some (to_record p)), sent (Retrieve [key]) w).
Proof.
  intros Hkey Hp Hok. unfold getVector, try_catch, bind. rewrite Hkey.
  unfold client_retrieve. rewrite request_answered by exact Hok.
  cbn [fst snd]. rewrite retrieve_one, Hp. reflexivity.
Qed.

(** The value [storeVector] returns resolves to the key the point was stored under. *)
Lemma returned_id_resolves (customId : option string) (w w' : World) :
  convertToValidId (Some (or_else customId (keyOf customId w))) w'
  = (Returned (keyOf customId w), w').
Proof.
  unfold or_else, keyOf.
  destruct (truthy customId) as [s|] eqn:E; cbn [default from_option Datatypes.id].
  - apply convertToValidId_given.
    destruct customId as [[|c s']|]; cbn in E; congruence.
  - apply convertToValidId_uuid, uuid_of_bits_format.
Qed.

(** C3: round trip. For a record with an embedding of length 384 and a store
    that answers the two requests, [storeVector] returns the record's id when
    one was supplied (a non-empty string) and the generated key otherwise, and
    [getVector] on the returned value then finds the record: it comes back
    under the returned id, with the record's text, the stored vector itself, and
    the record's metadata (the empty mapping when none was given). *)
Theorem store_then_get (record : VectorRecord) (w : World) :
  List.length (vr_embedding record) = 384 ->
  faults w (List.length (requests w)) = None ->
  faults w (S (List.length (requests w))) = None ->
  exists (returned : string) (w1 w2 : World) (found : VectorRecord),
    storeVector record w = (Returned returned, w1) /\
    (forall id : string, vr_id record = Some id -> id <> "" -> returned = id) /\
    (vr_id record = None \/ vr_id record = Some "" ->
     returned = uuid_of_bits (entropy w (draws w))) /\
    getVector returned w1 = (Returned (Some found), w2) /\
    vr_id found = Some returned /\
    vr_text found = vr_text record /\
    vr_embedding found = vr_embedding record /\
    vr_metadata found = Some (default ∅ (vr_metadata record)).
Proof.
  intros Hlen Hok0 Hok1.
  set (key := keyOf (vr_id record) w).
  set (p := pointOf record key (clock w)).
  set (w1 := with_points (<[key := p]> (points w))
               (sent (Upsert [p]) (afterKey (vr_id record) w))).
  exists (or_else (vr_id record) key), w1, (sent (Retrieve [key]) w1), (to_record p).
  destruct (afterKey_store (vr_id record) w) as (Hp & Hr & Hf & Hc).
  split; [apply storeVector_stored; assumption|].
  split.
  { intros id Hid Hne. rewrite Hid. destruct id; [congruence|reflexivity]. }
  split.
  { intros [Hid|Hid]; rewrite Hid; subst key; unfold keyOf; rewrite Hid; reflexivity. }
  split.
  { apply getVector_direct.
    - apply returned_id_resolves.
    - subst w1. cbn [points with_points]. apply lookup_insert_eq.
    - subst w1. cbn [faults requests with_points sent List.length]. rewrite Hf, Hr. exact Hok1. }
  repeat split.
Qed.

Lemma store_then_get_witness :
  exists (returned : string) (w1 w2 : World) (found : VectorRecord),
    storeVector doc_001 quiet_world = (Returned returned, w1) /\
    (forall id : string, vr_id doc_001 = Some id -> id <> "" -> returned = id) /\
    (vr_id doc_001 = None \/ vr_id doc_001 = Some "" ->
     returned = uuid_of_bits (entropy quiet_world (draws quiet_world))) /\
    getVector returned w1 = (Returned (Some found), w2) /\
    vr_id found = Some returned /\
    vr_text found = vr_text doc_001 /\
    vr_embedding found = vr_embedding doc_001 /\
    vr_metadata found = Some (default ∅ (vr_metadata doc_001)).
Proof.
  apply (store_then_get doc_001 quiet_world); reflexivity.
Defined.

Example store_then_get_doc_001 :
  fst (storeVector doc_001 quiet_world) = Returned "doc_001" /\
  option_map vr_text
    (match fst (getVector "doc_001" (snd (storeVector doc_001 quiet_world))) with
     | Returned found => found
     | Thrown _ => None
     end) = Some "Photosynthesis converts sunlight into energy".
Proof. vm_compute. split; reflexivity. Qed.

(** ** Self-exclusion in [POST /query/similar/:id] *)

(** What the filter of the handler does achieve: no result of the reply carries
    the id the caller passed. *)
Lemma post_similar_excludes_param (id : string) (limit threshold : option float)
    (w w' : World) (status : nat) (response : QueryResponse) :
  post_similar id limit threshold w = (Returned (status, response), w') ->
  forall result : QueryResult, In result (resp_results response) -> qr_id result <> id.
Proof.
  unfold post_similar, try_catch, bind, ret.
  destruct (getVector id w) as [[[record|]|e] w1].
  - destruct (search (vr_embedding record) (default 10%float limit) (default 0%float threshold) w1)
      as [[results|e] w2]; intros H; inversion H; subst; cbn [resp_results].
    + intros result Hin. apply filter_In in Hin as [_ Hne].
      apply negb_true_iff in Hne. apply String.eqb_neq in Hne. exact Hne.
    + intros result [].
  - intros H. inversion H. subst. intros result [].
  - intros H. inversion H. subst. intros result [].
Qed.

(** C4, at the failing input. The record stored as [doc_001] lives under its
    derived key; [getVector] resolves that key to the record [doc_001]. Asked
    for the records similar to [doc_001], the handler leaves the record out;
    asked for the records similar to the derived key, it reports the record as
    similar to itself, because the filter compares the results' ids (the
    original id, [doc_001]) with the id of the request (the key). *)
Theorem post_similar_by_key_reports_itself :
  fst (convertToValidId (Some "doc_001") quiet_world)
    = Returned "899c9194-ab2e-428b-8920-fb6c3b0edf72" /\
  match fst (getVector "899c9194-ab2e-428b-8920-fb6c3b0edf72"
               (snd (storeVector doc_001 quiet_world))) with
  | Returned (Some record) => vr_id record = Some "doc_001"
  | _ => False
  end /\
  reply_ids (fst (post_similar "doc_001" None None (snd (storeVector doc_001 quiet_world))))
    = Some (200, []) /\
  reply_ids (fst (post_similar "899c9194-ab2e-428b-8920-fb6c3b0edf72" None None
                    (snd (storeVector doc_001 quiet_world))))
    = Some (200, ["doc_001"]).
Proof. vm_compute. repeat split. Qed.

(** ** [deleteVector] *)

(** Whenever the store answers the delete request, [deleteVector] returns
    [true]: nothing on this path looks at whether the key held a point. *)
Lemma deleteVector_answered (id : string) (w : World) :
  faults w (List.length (requests w)) = None ->
  deleteVector id w =
    (Returned true,
     with_points (delete (keyOf (Some id) w) (points w))
       (sent (Delete [keyOf (Some id) w]) (afterKey (Some id) w))).
Proof.
  intros Hok. unfold deleteVector, try_catch, bind.
  rewrite convertToValidId_eq.
  destruct (afterKey_store (Some id) w) as (Hp & Hr & Hf & _).
  unfold client_delete. rewrite request_answered by (rewrite Hf, Hr; exact Hok).
  cbn [fst snd ret List.fold_left]. rewrite Hp. reflexivity.
Qed.

(** [false] is returned only when the store refused the delete request. *)
Lemma deleteVector_false_refused (id : string) (w w' : World) :
  deleteVector id w = (Returned false, w') ->
  faults w (List.length (requests w)) <> None.
Proof.
  intros H Hok. rewrite (deleteVector_answered id w Hok) in H. discriminate H.
Qed.

(** C5, at the failing input. In a world whose collection is empty, no record
    is addressed by [doc_404] ([getVector] returns [null]), the store
    acknowledges the delete request, and [deleteVector] returns [true]. *)
Theorem deleteVector_absent_returns_true :
  points quiet_world = ∅ /\
  fst (getVector "doc_404" quiet_world) = Returned None /\
  fst (deleteVector "doc_404" quiet_world) = Returned true.
Proof. vm_compute. repeat split. Qed.

(** What does hold of [deleteVector]: in a collection where every recorded
    original id sits under its derived key, once [deleteVector] has been
    answered for a non-empty id, [getVector] finds nothing under that id. *)
Lemma scroll_misses (m : gmap string Point) (id : string) :
  (forall (k : string) (p : Point), m !! k = Some p -> has_original_id id p = false) ->
  List.filter (has_original_id id) (List.map snd (map_to_list m)) = [].
Proof.
  intros Hnone.
  destruct (List.filter (has_original_id id) (List.map snd (map_to_list m))) as [|p rest] eqn:E;
    [reflexivity|].
  assert (Hin : In p (List.filter (has_original_id id) (List.map snd (map_to_list m)))).
  { rewrite E. left. reflexivity. }
  apply filter_In in Hin as [Hin Hp].
  apply in_map_iff in Hin as ([k p'] & Heq & Hin). cbn in Heq. subst p'.
  apply list_elem_of_In, elem_of_map_to_list in Hin.
  rewrite (Hnone k p Hin) in Hp. discriminate Hp.
Qed.

Lemma getVector_miss (id : string) (w : World) :
  id <> "" ->
  points w !! storageKey id = None ->
  (forall (k : string) (p : Point), points w !! k = Some p -> has_original_id id p = false) ->
  faults w (List.length (requests w)) = None ->
  faults w (S (List.length (requests w))) = None ->
  exists w' : World, getVector id w = (Returned None, w').
Proof.
  intros Hne Hkey Hnone Hok0 Hok1. unfold getVector, try_catch, bind.
  rewrite (convertToValidId_given id w Hne).
  unfold client_retrieve. rewrite request_answered by exact Hok0.
  cbn [fst snd]. rewrite retrieve_one, Hkey. cbn [List.length Nat.eqb andb].
  destruct (negb (storageKey id =? id)).
  - unfold client_scroll. rewrite request_answered by exact Hok1.
    cbn [fst snd points with_points sent]. rewrite (scroll_misses _ id Hnone).
    eexists. reflexivity.
  - eexists. reflexivity.
Qed.

(** X13: deleting, then reading. In a collection where every point that
    records an original id sits under the key derived from it, and with a store
    that answers, [deleteVector] returns [true] and a [getVector] of the same
    id afterwards returns [null]. *)
Lemma deleteVector_then_getVector (id : string) (w : World) :
  id <> "" ->
  well_keyed (points w) ->
  faults w (List.length (requests w)) = None ->
  faults w (S (List.length (requests w))) = None ->
  faults w (S (S (List.length (requests w)))) = None ->
  exists w1 w2 : World,
    deleteVector id w = (Returned true, w1) /\
    getVector id w1 = (Returned None, w2).
Proof.
  intros Hne Hwk Hok0 Hok1 Hok2.
  eexists. 
  assert (Hkey : keyOf (Some id) w = storageKey id).
  { unfold keyOf. destruct id; [congruence|reflexivity]. }
  assert (Hafter : afterKey (Some id) w = w).
  { unfold afterKey. destruct id; [congruence|reflexivity]. }
  rewrite (deleteVector_answered id w Hok0), Hkey, Hafter.
  destruct (getVector_miss id
              (with_points (delete (storageKey id) (points w))
                 (sent (Delete [storageKey id]) w)) Hne) as (w2 & Hget).
  - cbn [points with_points]. apply lookup_delete_eq.
  - cbn [points with_points]. intros k p Hkp.
    apply lookup_delete_Some in Hkp as [Hk Hkp].
    unfold has_original_id. destruct (original_id (pt_payload p)) as [o|] eqn:Ho; [|reflexivity].
    apply String.eqb_neq. intros ->. apply Hk. symmetry. exact (Hwk k p id Hkp Ho Hne).
  - exact Hok1.
  - exact Hok2.
  - exists w2. split; [reflexivity|exact Hget].
Qed.

(** The collections [storeVector] builds are of that kind. *)
Lemma well_keyed_empty : well_keyed ∅.
Proof. intros k p id H. rewrite lookup_empty in H. discriminate H. Qed.

Lemma well_keyed_storeVector (record : VectorRecord) (w : World) :
  well_keyed (points w) -> well_keyed (points (snd (storeVector record w))).
Proof.
  intros Hwk.
  destruct (Nat.eq_dec (List.length (vr_embedding record)) 384) as [Hlen|Hlen].
  - destruct (faults w (List.length (requests w))) as [message|] eqn:Hok.
    + unfold storeVector, try_catch, bind. rewrite convertToValidId_eq.
      unfold vectorSize. rewrite Hlen. cbn [Nat.eqb negb now].
      destruct (afterKey_store (vr_id record) w) as (Hp & Hr & Hf & _).
      unfold client_upsert. rewrite (request_refused _ _ _ message) by (rewrite Hf, Hr; exact Hok).
      cbn [snd throw points sent]. rewrite Hp. exact Hwk.
    + rewrite (storeVector_stored record w Hlen Hok). cbn [snd points with_points].
      intros k p id Hkp Ho Hne.
      destruct (decide (keyOf (vr_id record) w = k)) as [<-|Hk].
      * rewrite lookup_insert_eq in Hkp. inversion Hkp; subst p. cbn in Ho.
        unfold keyOf. rewrite Ho. destruct id; [congruence|reflexivity].
      * rewrite lookup_insert_ne in Hkp by exact Hk. exact (Hwk k p id Hkp Ho Hne).
  - rewrite (storeVector_rejected record w Hlen). cbn [snd].
    destruct (afterKey_store (vr_id record) w) as (Hp & _). rewrite Hp. exact Hwk.
Qed.

(** ** The payload of the points written *)

Lemma storeVector_keeps_original_id (record : VectorRecord) (w : World) :
  List.length (vr_embedding record) = 384 ->
  faults w (List.length (requests w)) = None ->
  stored_original_id (keyOf (vr_id record) w) (snd (storeVector record w)) = Some (vr_id record).
Proof.
  intros Hlen Hok. rewrite storeVector_stored by assumption.
  unfold stored_original_id. cbn [snd points with_points].
  rewrite lookup_insert_eq. reflexivity.
Qed.

Lemma mapM_batch_point_payload (records : list VectorRecord) :
  forall (w w1 : World) (pts : list Point),
    mapM batch_point records w = (Returned pts, w1) ->
    List.Forall (fun p => original_id (pt_payload p) = None) pts.
Proof.
  induction records as [|record records IH]; intros w w1 pts H.
  - inversion H. constructor.
  - cbn [mapM] in H. unfold bind at 1 in H.
    destruct (Nat.eq_dec (List.length (vr_embedding record)) 384) as [Hgood|Hbad].
    + destruct (batch_point_good record w Hgood) as (p & w2 & Hp & _ & _ & Hnone & _).
      rewrite Hp in H. unfold bind in H.
      destruct (mapM batch_point records w2) as [[rest|e] w3] eqn:Hrest; [|discriminate H].
      inversion H; subst. constructor; [exact Hnone|]. exact (IH w2 w1 rest Hrest).
    + destruct (batch_point_bad record w Hbad) as (id & w2 & Hthrow & _).
      rewrite Hthrow in H. discriminate H.
Qed.

(** No point written by [storeVectors] has an [original_id] in its payload. *)
Lemma storeVectors_payload (records : list VectorRecord) (w w' : World) (ids : list string) :
  storeVectors records w = (Returned ids, w') ->
  exists (pts : list Point) (rest : list Request),
    requests w' = Upsert pts :: rest /\
    List.Forall (fun p => original_id (pt_payload p) = None) pts.
Proof.
  unfold storeVectors, try_catch, bind. intros H.
  destruct (mapM batch_point records w) as [[pts|e] w1] eqn:Hpts; [|discriminate H].
  exists pts, (requests w1). split; [|exact (mapM_batch_point_payload records w w1 pts Hpts)].
  unfold client_upsert, request in H.
  destruct (faults w1 (List.length (requests w1))); [discriminate H|].
  inversion H. reflexivity.
Qed.

(** C7, at the failing input. [storeVector] writes the caller's id into the
    payload of its point; [storeVectors], given a record with an id, writes a
    point whose payload has no [original_id]. *)
Theorem storeVectors_drops_original_id :
  stored_original_id "899c9194-ab2e-428b-8920-fb6c3b0edf72" (snd (storeVector doc_001 quiet_world))
    = Some (Some "doc_001") /\
  fst (storeVectors [doc_uuid] quiet_world) = Returned ["550e8400-e29b-41d4-a716-446655440000"] /\
  stored_original_id "550e8400-e29b-41d4-a716-446655440000" (snd (storeVectors [doc_uuid] quiet_world))
    = Some None.
Proof. vm_compute. repeat split. Qed.
(** * Further properties *)

Local Open Scope list_scope.

(** ** Reading never writes *)

Lemma request_reads {A : Type} (r : Request)
    (serve : gmap string Point -> A * gmap string Point) (w : World) :
  (forall m, snd (serve m) = m) ->
  points (snd (request r serve w)) = points w /\
  requests (snd (request r serve w)) = r :: requests w /\
  faults (snd (request r serve w)) = faults w.
Proof.
  intros Hserve. unfold request.
  destruct (faults w (List.length (requests w))); [repeat split|].
  specialize (Hserve (points w)). destruct (serve (points w)) as [a m]. cbn in Hserve. subst m.
  repeat split.
Qed.

Lemma client_retrieve_reads (ids : list string) (w : World) :
  points (snd (client_retrieve ids w)) = points w /\
  requests (snd (client_retrieve ids w)) = Retrieve ids :: requests w /\
  faults (snd (client_retrieve ids w)) = faults w.
Proof. apply request_reads. reflexivity. Qed.

Lemma client_scroll_reads (id : string) (limit : nat) (w : World) :
  points (snd (client_scroll id limit w)) = points w /\
  requests (snd (client_scroll id limit w)) = Scroll id limit :: requests w /\
  faults (snd (client_scroll id limit w)) = faults w.
Proof. apply request_reads. reflexivity. Qed.

Lemma client_search_reads (v : list float) (limit threshold : float) (w : World) :
  points (snd (client_search v limit threshold w)) = points w /\
  requests (snd (client_search v limit threshold w)) = Search v limit threshold :: requests w /\
  faults (snd (client_search v limit threshold w)) = faults w.
Proof. apply request_reads. reflexivity. Qed.

Lemma getVector_reads (id : string) (w : World) :
  points (snd (getVector id w)) = points w /\
  (requests (snd (getVector id w)) = Retrieve [keyOf (Some id) w] :: requests w \/
   requests (snd (getVector id w))
     = Scroll id 1 :: Retrieve [keyOf (Some id) w] :: requests w).
Proof.
  unfold getVector, try_catch, bind. rewrite convertToValidId_eq.
  destruct (afterKey_store (Some id) w) as (Hp & Hr & _).
  destruct (client_retrieve_reads [keyOf (Some id) w] (afterKey (Some id) w)) as (Hp1 & Hr1 & _).
  destruct (client_retrieve [keyOf (Some id) w] (afterKey (Some id) w)) as [[result|e] w1];
    cbn [snd] in Hp1, Hr1.
  - destruct (Nat.eqb (List.length result) 0 && negb (keyOf (Some id) w =? id)).
    + destruct (client_scroll_reads id 1 w1) as (Hp2 & Hr2 & _).
      destruct (client_scroll id 1 w1) as [[found|e] w2]; cbn [snd] in Hp2, Hr2.
      * unfold ret.
        destruct (if Nat.ltb 0 (List.length found) then found else result);
          cbn [snd]; (split; [congruence|right; congruence]).
      * cbn [snd throw]. split; [congruence|right; congruence].
    + unfold ret. destruct result; cbn [snd]; (split; [congruence|left; congruence]).
  - cbn [snd throw]. split; [congruence|left; congruence].
Qed.

(** X1: [getVector] never changes the collection, and sends one [retrieve] for the
    derived key, followed by at most one [scroll] for the original id: never
    an upsert, a delete or a search. *)
Theorem getVector_read_only (id : string) (w : World) :
  points (snd (getVector id w)) = points w /\
  (requests (snd (getVector id w)) = Retrieve [keyOf (Some id) w] :: requests w \/
   requests (snd (getVector id w))
     = Scroll id 1 :: Retrieve [keyOf (Some id) w] :: requests w).
Proof. exact (getVector_reads id w). Qed.

Lemma searchSimilar_reads (v : list float) (limit threshold : float) (w : World) :
  points (snd (searchSimilar v limit threshold w)) = points w /\
  (requests (snd (searchSimilar v limit threshold w)) = requests w \/
   requests (snd (searchSimilar v limit threshold w)) = Search v limit threshold :: requests w).
Proof.
  unfold searchSimilar, try_catch, bind.
  destruct (negb (Nat.eqb (List.length v) vectorSize)).
  - cbn [snd throw]. split; [reflexivity|left; reflexivity].
  - destruct (client_search_reads v limit threshold w) as (Hp & Hr & _).
    destruct (client_search v limit threshold w) as [[found|e] w1]; cbn [snd] in Hp, Hr;
      cbn [snd ret throw]; (split; [congruence|right; congruence]).
Qed.

(** [searchSimilar] never changes the collection and sends at most one request,
    a search. *)
Theorem searchSimilar_read_only (v : list float) (limit threshold : float) (w : World) :
  points (snd (searchSimilar v limit threshold w)) = points w /\
  (requests (snd (searchSimilar v limit threshold w)) = requests w \/
   requests (snd (searchSimilar v limit threshold w)) = Search v limit threshold :: requests w).
Proof. exact (searchSimilar_reads v limit threshold w). Qed.

(** X2: A query vector whose length is not 384 is refused before anything is sent:
    [searchSimilar] throws the error that names both lengths and leaves the
    world as it was. *)
Theorem searchSimilar_dimension_mismatch (v : list float) (limit threshold : float) (w : World) :
  List.length v <> 384 ->
  searchSimilar v limit threshold w =
    (Thrown ("Failed to search similar vectors: Query vector dimension mismatch. Expected 384, got "
               +:+ decimal (List.length v)), w).
Proof.
  intros Hlen. apply Nat.eqb_neq in Hlen.
  unfold searchSimilar, try_catch, vectorSize. rewrite Hlen. reflexivity.
Qed.

Lemma searchSimilar_dimension_mismatch_witness :
  searchSimilar [1%float; 2%float; 3%float] 10 0 quiet_world =
    (Thrown "Failed to search similar vectors: Query vector dimension mismatch. Expected 384, got 3",
     quiet_world).
Proof.
  apply (searchSimilar_dimension_mismatch [1%float; 2%float; 3%float] 10 0 quiet_world).
  simpl. lia.
Defined.

(** ** What [getVector] finds *)

Lemma stored_values (m : gmap string Point) (p : Point) :
  In p (List.map snd (map_to_list m)) <-> exists k : string, m !! k = Some p.
Proof.
  rewrite in_map_iff. split.
  - intros ([k p'] & Heq & Hin). cbn in Heq. subst p'. exists k.
    apply elem_of_map_to_list, list_elem_of_In. exact Hin.
  - intros (k & Hk). exists (k, p). split; [reflexivity|].
    apply list_elem_of_In, elem_of_map_to_list. exact Hk.
Qed.

Lemma has_original_id_true (id : string) (p : Point) :
  has_original_id id p = true <-> original_id (pt_payload p) = Some id.
Proof.
  unfold has_original_id. destruct (original_id (pt_payload p)) as [o|].
  - rewrite String.eqb_eq. split; congruence.
  - split; discriminate.
Qed.

(** The first match of the scan for an original id, if any. *)
Lemma scan_head (id : string) (m : gmap string Point) :
  match List.firstn 1 (List.filter (has_original_id id) (List.map snd (map_to_list m))) with
  | [] => forall (k : string) (p : Point), m !! k = Some p -> original_id (pt_payload p) <> Some id
  | p :: rest =>
      rest = [] /\ original_id (pt_payload p) = Some id /\ exists k : string, m !! k = Some p
  end.
Proof.
  destruct (List.filter (has_original_id id) (List.map snd (map_to_list m))) as [|p l] eqn:E.
  - cbn. intros k p Hk Ho.
    assert (Hin : In p (List.filter (has_original_id id) (List.map snd (map_to_list m)))).
    { apply filter_In. split; [apply stored_values; eauto|apply has_original_id_true; exact Ho]. }
    rewrite E in Hin. exact Hin.
  - cbn. split; [reflexivity|].
    assert (Hin : In p (List.filter (has_original_id id) (List.map snd (map_to_list m)))).
    { rewrite E. left. reflexivity. }
    apply filter_In in Hin as [Hin Ho].
    split; [apply has_original_id_true; exact Ho|apply stored_values; exact Hin].
Qed.

(** A non-native id is never its own key. *)
Lemma storageKey_self (id : string) : storageKey id = id <-> uuidRegex_test id = true.
Proof.
  split.
  - intros H. rewrite <- H. apply storageKey_format.
  - intros H. unfold storageKey. rewrite H. reflexivity.
Qed.



(** X3: Whatever [getVector] returns was stored and is addressed by the id: the
    record is rebuilt from a point of the collection which sits under the key
    derived from the id, or carries the id as [original_id] in its payload. *)
Theorem getVector_sound (id : string) (w w' : World) (record : VectorRecord) :
  getVector id w = (Returned (Some record), w') ->
  exists (k : string) (p : Point),
    points w !! k = Some p /\ record = to_record p /\
    (k = keyOf (Some id) w \/ original_id (pt_payload p) = Some id).
Proof.
  unfold getVector, try_catch, bind. rewrite convertToValidId_eq.
  destruct (afterKey_store (Some id) w) as (Hp & _).
  remember (afterKey (Some id) w) as w0 eqn:Hw0. remember (keyOf (Some id) w) as key eqn:Hkey.
  clear Hw0 Hkey. rewrite <- Hp.
  unfold client_retrieve, request.
  destruct (faults w0 (List.length (requests w0))); [discriminate|].
  rewrite retrieve_one.
  destruct (points w0 !! key) as [p|] eqn:Hk.
  - cbn. intros H. inversion H; subst. exists key, p. auto.
  - cbn [List.length Nat.eqb andb].
    destruct (negb (key =? id)); [|cbn; discriminate].
    unfold client_scroll, request. cbn [faults requests points with_points sent].
    destruct (faults w0 _); [discriminate|].
    pose proof (scan_head id (points w0)) as Hscan.
    destruct (List.firstn 1 _) as [|p rest]; [cbn; discriminate|].
    destruct Hscan as (_ & Ho & k & Hkp).
    cbn. intros H. inversion H; subst. exists k, p. auto.
Qed.

Lemma getVector_sound_witness :
  exists (k : string) (p : Point),
    points (snd (storeVector doc_001 quiet_world)) !! k = Some p /\
    to_record (pointOf doc_001 "899c9194-ab2e-428b-8920-fb6c3b0edf72" 0) = to_record p /\
    (k = keyOf (Some "doc_001") (snd (storeVector doc_001 quiet_world)) \/
     original_id (pt_payload p) = Some "doc_001").
Proof.
  apply (getVector_sound "doc_001" (snd (storeVector doc_001 quiet_world))
           (snd (getVector "doc_001" (snd (storeVector doc_001 quiet_world))))).
  vm_compute. reflexivity.
Defined.

(** X4: The second path of [getVector]: when nothing sits under the derived key of
    a non-native id, a point that records the id as its [original_id] is found
    by the scan, and the record comes back under that id. *)
Theorem getVector_by_original_id (id : string) (w : World) :
  id <> "" ->
  uuidRegex_test id = false ->
  points w !! storageKey id = None ->
  (exists (k : string) (p : Point),
     points w !! k = Some p /\ original_id (pt_payload p) = Some id) ->
  faults w (List.length (requests w)) = None ->
  faults w (S (List.length (requests w))) = None ->
  exists (p : Point) (k : string) (w' : World),
    getVector id w = (Returned (Some (to_record p)), w') /\
    points w !! k = Some p /\
    original_id (pt_payload p) = Some id /\
    vr_id (to_record p) = Some id.
Proof.
  intros Hne Hno Hmiss (k0 & p0 & Hk0 & Ho0) Hok0 Hok1.
  unfold getVector, try_catch, bind. rewrite (convertToValidId_given id w Hne).
  unfold client_retrieve. rewrite request_answered by exact Hok0.
  cbn [fst snd]. rewrite retrieve_one, Hmiss. cbn [List.length Nat.eqb andb].
  destruct (String.eqb_spec (storageKey id) id) as [Heq|_].
  { apply storageKey_self in Heq. congruence. }
  cbn [negb]. unfold client_scroll. rewrite request_answered by exact Hok1.
  cbn [fst snd points with_points sent].
  pose proof (scan_head id (points w)) as Hscan.
  destruct (List.firstn 1 _) as [|p rest].
  - exfalso. exact (Hscan k0 p0 Hk0 Ho0).
  - destruct Hscan as (_ & Ho & k & Hk).
    exists p, k. eexists. split; [reflexivity|]. split; [exact Hk|]. split; [exact Ho|].
    unfold to_record, or_else. cbn [vr_id]. rewrite Ho.
    destruct id; [congruence|reflexivity].
Qed.

Lemma getVector_by_original_id_witness :
  exists (p : Point) (k : string) (w' : World),
    getVector "doc_001" legacy_world = (Returned (Some (to_record p)), w') /\
    points legacy_world !! k = Some p /\
    original_id (pt_payload p) = Some "doc_001" /\
    vr_id (to_record p) = Some "doc_001".
Proof.
  apply (getVector_by_original_id "doc_001" legacy_world).
  - discriminate.
  - vm_compute. reflexivity.
  - vm_compute. reflexivity.
  - exists "0f8fad5b-d9cb-469f-a165-70867728950e",
      (pointOf doc_001 "0f8fad5b-d9cb-469f-a165-70867728950e" 0).
    split; vm_compute; reflexivity.
  - reflexivity.
  - reflexivity.
Defined.

(** X5: For an id in UUID format [getVector] makes one request, the retrieval of
    that very key, and never scans the payloads: when the store answers, the
    result is the point under the key, or [null] when there is none. *)
Theorem getVector_native_key (id : string) (w : World) :
  uuidRegex_test id = true ->
  requests (snd (getVector id w)) = Retrieve [id] :: requests w /\
  (faults w (List.length (requests w)) = None ->
   fst (getVector id w) = Returned (option_map to_record (points w !! id))).
Proof.
  intros Hid. unfold getVector, try_catch, bind.
  rewrite (convertToValidId_uuid id w Hid). unfold client_retrieve, request.
  destruct (faults w (List.length (requests w))) as [message|].
  - split; [reflexivity|discriminate].
  - rewrite retrieve_one, String.eqb_refl. cbn [negb]. rewrite andb_false_r. split.
    + destruct (points w !! id); reflexivity.
    + intros _. destruct (points w !! id); reflexivity.
Qed.

Lemma getVector_native_key_witness :
  requests (snd (getVector "550e8400-e29b-41d4-a716-446655440000" legacy_world))
    = Retrieve ["550e8400-e29b-41d4-a716-446655440000"] :: requests legacy_world /\
  (faults legacy_world (List.length (requests legacy_world)) = None ->
   fst (getVector "550e8400-e29b-41d4-a716-446655440000" legacy_world)
     = Returned (option_map to_record
                   (points legacy_world !! "550e8400-e29b-41d4-a716-446655440000"))).
Proof.
  apply (getVector_native_key "550e8400-e29b-41d4-a716-446655440000" legacy_world).
  vm_compute. reflexivity.
Defined.

(** ** Refusals of the store *)

(** X6: When the store refuses the first request of a call, [storeVector],
    [getVector] and [searchSimilar] throw an error that names the operation and
    carries the store's message; none of them returns a value, and the
    collection is as before. *)
Theorem refusal_is_reported (w : World) (message : string) :
  faults w (List.length (requests w)) = Some message ->
  (forall record : VectorRecord,
     List.length (vr_embedding record) = 384 ->
     fst (storeVector record w) = Thrown ("Failed to store vector: " +:+ message) /\
     points (snd (storeVector record w)) = points w) /\
  (forall id : string,
     fst (getVector id w) = Thrown ("Failed to retrieve vector: " +:+ message) /\
     points (snd (getVector id w)) = points w) /\
  (forall (v : list float) (limit threshold : float),
     List.length v = 384 ->
     fst (searchSimilar v limit threshold w)
       = Thrown ("Failed to search similar vectors: " +:+ message) /\
     points (snd (searchSimilar v limit threshold w)) = points w).
Proof.
  intros Hfault. split; [|split].
  - intros record Hlen. unfold storeVector, try_catch, bind.
    rewrite convertToValidId_eq. unfold vectorSize. rewrite Hlen. cbn [Nat.eqb negb now].
    destruct (afterKey_store (vr_id record) w) as (Hp & Hr & Hf & _).
    unfold client_upsert. rewrite (request_refused _ _ _ message) by (rewrite Hf, Hr; exact Hfault).
    cbn [fst snd throw points sent]. split; [reflexivity|exact Hp].
  - intros id. unfold getVector, try_catch, bind. rewrite convertToValidId_eq.
    destruct (afterKey_store (Some id) w) as (Hp & Hr & Hf & _).
    unfold client_retrieve. rewrite (request_refused _ _ _ message) by (rewrite Hf, Hr; exact Hfault).
    cbn [fst snd throw points sent]. split; [reflexivity|exact Hp].
  - intros v limit threshold Hlen. unfold searchSimilar, try_catch, bind, vectorSize.
    rewrite Hlen. cbn [Nat.eqb negb]. unfold client_search.
    rewrite (request_refused _ _ _ message) by exact Hfault.
    cbn [fst snd throw points sent]. split; reflexivity.
Qed.

Lemma refusal_is_reported_witness :
  (forall record : VectorRecord,
     List.length (vr_embedding record) = 384 ->
     fst (storeVector record offline_world) = Thrown ("Failed to store vector: " +:+ "fetch failed") /\
     points (snd (storeVector record offline_world)) = points offline_world) /\
  (forall id : string,
     fst (getVector id offline_world) = Thrown ("Failed to retrieve vector: " +:+ "fetch failed") /\
     points (snd (getVector id offline_world)) = points offline_world) /\
  (forall (v : list float) (limit threshold : float),
     List.length v = 384 ->
     fst (searchSimilar v limit threshold offline_world)
       = Thrown ("Failed to search similar vectors: " +:+ "fetch failed") /\
     points (snd (searchSimilar v limit threshold offline_world)) = points offline_world).
Proof. apply (refusal_is_reported offline_world "fetch failed"). reflexivity. Defined.

(** ** [deleteVector] *)

(** X7: When the store refuses the delete of a key in UUID format, [deleteVector]
    does not report the refusal: it returns [false], as for an id that was not
    found, after that one request. *)
Theorem deleteVector_refused_native (id : string) (w : World) (message : string) :
  uuidRegex_test id = true ->
  faults w (List.length (requests w)) = Some message ->
  deleteVector id w = (Returned false, sent (Delete [id]) w).
Proof.
  intros Hid Hfault. unfold deleteVector, try_catch, bind.
  rewrite (convertToValidId_uuid id w Hid). unfold client_delete.
  rewrite (request_refused _ _ _ message) by exact Hfault.
  rewrite String.eqb_refl. reflexivity.
Qed.

Lemma deleteVector_refused_native_witness :
  deleteVector "550e8400-e29b-41d4-a716-446655440000" offline_world
  = (Returned false, sent (Delete ["550e8400-e29b-41d4-a716-446655440000"]) offline_world).
Proof.
  apply (deleteVector_refused_native "550e8400-e29b-41d4-a716-446655440000" offline_world
           "fetch failed"); reflexivity.
Defined.

(** X8: The second path of [deleteVector]: when the delete of the derived key of a
    non-native id was refused and the store answers again, the payloads are
    scanned for the id. If a point records it, the point named by that scan is
    deleted and the result is [true]; if none does, the result is [false] and
    the collection is untouched. *)
Theorem deleteVector_by_original_id (id : string) (w : World) (message : string) :
  id <> "" ->
  uuidRegex_test id = false ->
  faults w (List.length (requests w)) = Some message ->
  faults w (S (List.length (requests w))) = None ->
  faults w (S (S (List.length (requests w)))) = None ->
  ((exists (k : string) (p : Point),
      points w !! k = Some p /\ original_id (pt_payload p) = Some id) ->
   exists (p : Point) (k : string) (w' : World),
     deleteVector id w = (Returned true, w') /\
     points w !! k = Some p /\ original_id (pt_payload p) = Some id /\
     points w' = delete (pt_id p) (points w)) /\
  ((forall (k : string) (p : Point),
      points w !! k = Some p -> original_id (pt_payload p) <> Some id) ->
   exists w' : World,
     deleteVector id w = (Returned false, w') /\ points w' = points w).
Proof.
  intros Hne Hno Hfault Hok1 Hok2.
  assert (Hstart : deleteVector id w =
    try_catch
      (let! searchResult := client_scroll id 1 in
       match searchResult with
       | found :: _ => let! _ := client_delete [pt_id found] in ret true
       | [] => ret false
       end)
      (fun message => throw ("Failed to delete vector: " +:+ message))
      (sent (Delete [storageKey id]) w)).
  { unfold deleteVector, try_catch, bind. rewrite (convertToValidId_given id w Hne).
    unfold client_delete at 1. rewrite (request_refused _ _ _ message) by exact Hfault.
    destruct (String.eqb_spec (storageKey id) id) as [Heq|_].
    { apply storageKey_self in Heq. congruence. }
    reflexivity. }
  rewrite Hstart. unfold try_catch, bind, client_scroll.
  rewrite request_answered by exact Hok1. cbn [fst snd points with_points sent].
  pose proof (scan_head id (points w)) as Hscan.
  destruct (List.firstn 1 _) as [|p rest].
  - split.
    + intros (k & p & Hk & Ho). exfalso. exact (Hscan k p Hk Ho).
    + intros _. eexists. split; reflexivity.
  - destruct Hscan as (_ & Ho & k & Hk). split.
    + intros _. exists p, k. unfold client_delete.
      rewrite request_answered by exact Hok2. cbn [fst snd List.fold_left].
      eexists. split; [reflexivity|]. repeat split; assumption.
    + intros Hnone. exfalso. exact (Hnone k p Hk Ho).
Qed.

Lemma deleteVector_by_original_id_witness :
  ((exists (k : string) (p : Point),
      points flaky_world !! k = Some p /\ original_id (pt_payload p) = Some "doc_001") ->
   exists (p : Point) (k : string) (w' : World),
     deleteVector "doc_001" flaky_world = (Returned true, w') /\
     points flaky_world !! k = Some p /\ original_id (pt_payload p) = Some "doc_001" /\
     points w' = delete (pt_id p) (points flaky_world)) /\
  ((forall (k : string) (p : Point),
      points flaky_world !! k = Some p -> original_id (pt_payload p) <> Some "doc_001") ->
   exists w' : World,
     deleteVector "doc_001" flaky_world = (Returned false, w') /\
     points w' = points flaky_world).
Proof.
  apply (deleteVector_by_original_id "doc_001" flaky_world "fetch failed").
  - discriminate.
  - vm_compute. reflexivity.
  - reflexivity.
  - reflexivity.
  - reflexivity.
Defined.

Lemma deleteVector_removes_at_most_one_aux (id : string) (w : World) :
  points (snd (deleteVector id w)) = points w \/
  exists k : string, points (snd (deleteVector id w)) = delete k (points w).
Proof.
  unfold deleteVector, try_catch, bind. rewrite convertToValidId_eq.
  destruct (afterKey_store (Some id) w) as (Hp & _). rewrite <- Hp.
  remember (afterKey (Some id) w) as w0 eqn:Hw0. remember (keyOf (Some id) w) as key eqn:Hkey.
  clear Hw0 Hkey Hp.
  unfold client_delete, client_scroll, request.
  destruct (faults w0 (List.length (requests w0))).
  - destruct (negb (key =? id)); [|left; reflexivity].
    cbn [faults requests sent List.length].
    destruct (faults w0 (S (List.length (requests w0)))); [left; reflexivity|].
    cbn [points sent with_points].
    destruct (List.firstn 1 _) as [|p rest]; [left; reflexivity|].
    cbn [faults requests sent with_points List.length].
    destruct (faults w0 (S (S (List.length (requests w0))))); [left; reflexivity|].
    right. exists (pt_id p). reflexivity.
  - right. exists key. reflexivity.
Qed.

(** X9: [deleteVector] removes at most one key from the collection and changes
    nothing else, whatever the store answers. *)
Theorem deleteVector_removes_at_most_one (id : string) (w : World) :
  points (snd (deleteVector id w)) = points w \/
  exists k : string, points (snd (deleteVector id w)) = delete k (points w).
Proof. exact (deleteVector_removes_at_most_one_aux id w). Qed.

(** ** [storeVector]: one key, fully replaced *)

(** X10: Storing a record leaves the records under other keys as they were:
    [getVector] still returns them. *)
Theorem storeVector_preserves_others (record : VectorRecord) (w : World) (id : string) (p : Point) :
  List.length (vr_embedding record) = 384 ->
  faults w (List.length (requests w)) = None ->
  faults w (S (List.length (requests w))) = None ->
  id <> "" ->
  storageKey id <> keyOf (vr_id record) w ->
  points w !! storageKey id = Some p ->
  fst (getVector id (snd (storeVector record w))) = Returned (Some (to_record p)).
Proof.
  intros Hlen Hok0 Hok1 Hne Hkey Hp.
  rewrite (storeVector_stored record w Hlen Hok0). cbn [snd].
  destruct (afterKey_store (vr_id record) w) as (_ & Hr & Hf & _).
  erewrite getVector_direct; [reflexivity| | |].
  - apply convertToValidId_given. exact Hne.
  - cbn [points with_points]. rewrite lookup_insert_ne by congruence. exact Hp.
  - cbn [faults requests with_points sent List.length]. rewrite Hf, Hr. exact Hok1.
Qed.

Lemma storeVector_preserves_others_witness :
  fst (getVector "doc_001" (snd (storeVector doc_uuid (snd (storeVector doc_001 quiet_world)))))
  = Returned (Some (to_record (pointOf doc_001 "899c9194-ab2e-428b-8920-fb6c3b0edf72" 0))).
Proof.
  apply (storeVector_preserves_others doc_uuid (snd (storeVector doc_001 quiet_world)) "doc_001").
  - reflexivity.
  - reflexivity.
  - reflexivity.
  - discriminate.
  - vm_compute. discriminate.
  - vm_compute. reflexivity.
Defined.



(** ** Invariants of the collection *)

Lemma storeVector_points (record : VectorRecord) (w : World) :
  points (snd (storeVector record w)) = points w \/
  points (snd (storeVector record w))
  = <[keyOf (vr_id record) w := pointOf record (keyOf (vr_id record) w) (clock w)]> (points w).
Proof.
  destruct (afterKey_store (vr_id record) w) as (Hp & Hr & Hf & _).
  destruct (Nat.eq_dec (List.length (vr_embedding record)) 384) as [Hlen|Hlen].
  - destruct (faults w (List.length (requests w))) as [message|] eqn:Hok.
    + left. unfold storeVector, try_catch, bind. rewrite convertToValidId_eq.
      unfold vectorSize. rewrite Hlen. cbn [Nat.eqb negb now].
      unfold client_upsert. rewrite (request_refused _ _ _ message) by (rewrite Hf, Hr; exact Hok).
      cbn [snd throw points sent]. exact Hp.
    + right. rewrite (storeVector_stored record w Hlen Hok). reflexivity.
  - left. rewrite (storeVector_rejected record w Hlen). exact Hp.
Qed.

Lemma batch_point_frame (record : VectorRecord) (w : World) :
  same_store w (snd (batch_point record w)).
Proof.
  unfold batch_point, bind.
  destruct (truthy (vr_id record)); cbn [ret uuidv4];
    destruct (negb (Nat.eqb (List.length (vr_embedding record)) vectorSize)); repeat split.
Qed.

Lemma mapM_batch_point_frame (records : list VectorRecord) :
  forall w : World, same_store w (snd (mapM batch_point records w)).
Proof.
  induction records as [|record records IH]; intros w; [repeat split|].
  cbn [mapM]. unfold bind at 1.
  pose proof (batch_point_frame record w) as H.
  destruct (batch_point record w) as [[p|e] w1]; cbn [snd] in *; [|exact H].
  unfold bind. pose proof (IH w1) as H1.
  destruct (mapM batch_point records w1) as [[pts|e] w2]; cbn [snd ret] in *;
    destruct H as (? & ? & ? & ?); destruct H1 as (? & ? & ? & ?); repeat split; congruence.
Qed.

Lemma storeVectors_points (records : list VectorRecord) (w : World) :
  points (snd (storeVectors records w)) = points w \/
  exists pts : list Point,
    List.Forall (fun p => original_id (pt_payload p) = None) pts /\
    points (snd (storeVectors records w))
    = List.fold_left (fun m p => <[pt_id p := p]> m) pts (points w).
Proof.
  unfold storeVectors, try_catch, bind.
  destruct (mapM_batch_point_frame records w) as (Hp & _).
  destruct (mapM batch_point records w) as [[pts|e] w1] eqn:Hpts; cbn [snd] in Hp;
    [|left; exact Hp].
  unfold client_upsert, request.
  destruct (faults w1 (List.length (requests w1))); [left; exact Hp|].
  right. exists pts. split; [exact (mapM_batch_point_payload records w w1 pts Hpts)|].
  cbn [snd ret points with_points]. rewrite Hp. reflexivity.
Qed.

Lemma self_keyed_empty : self_keyed ∅.
Proof. intros k p H. rewrite lookup_empty in H. discriminate H. Qed.

Lemma insert_keeps_invariants (m : gmap string Point) (p : Point) :
  well_keyed m -> self_keyed m ->
  (forall id : string, original_id (pt_payload p) = Some id -> id <> "" -> pt_id p = storageKey id) ->
  well_keyed (<[pt_id p := p]> m) /\ self_keyed (<[pt_id p := p]> m).
Proof.
  intros Hwk Hsk Hp. split.
  - intros k q id Hk Ho Hne. destruct (decide (pt_id p = k)) as [<-|Hneq].
    + rewrite lookup_insert_eq in Hk. inversion Hk; subst q. exact (Hp id Ho Hne).
    + rewrite lookup_insert_ne in Hk by exact Hneq. exact (Hwk k q id Hk Ho Hne).
  - intros k q Hk. destruct (decide (pt_id p = k)) as [<-|Hneq].
    + rewrite lookup_insert_eq in Hk. inversion Hk; subst q. reflexivity.
    + rewrite lookup_insert_ne in Hk by exact Hneq. exact (Hsk k q Hk).
Qed.

Lemma upsert_keeps_invariants (pts : list Point) :
  List.Forall (fun p => original_id (pt_payload p) = None) pts ->
  forall m : gmap string Point,
    well_keyed m -> self_keyed m ->
    well_keyed (List.fold_left (fun m p => <[pt_id p := p]> m) pts m) /\
    self_keyed (List.fold_left (fun m p => <[pt_id p := p]> m) pts m).
Proof.
  induction 1 as [|p pts Hp _ IH]; intros m Hwk Hsk; [split; assumption|].
  cbn [List.fold_left].
  destruct (insert_keeps_invariants m p Hwk Hsk) as (Hwk' & Hsk').
  { intros id Ho. rewrite Hp in Ho. discriminate Ho. }
  exact (IH _ Hwk' Hsk').
Qed.

Lemma delete_keeps_invariants (m : gmap string Point) (k : string) :
  well_keyed m -> self_keyed m -> well_keyed (delete k m) /\ self_keyed (delete k m).
Proof.
  intros Hwk Hsk. split.
  - intros k' q id Hk. apply lookup_delete_Some in Hk as [_ Hk]. exact (Hwk k' q id Hk).
  - intros k' q Hk. apply lookup_delete_Some in Hk as [_ Hk]. exact (Hsk k' q Hk).
Qed.

(** X12: Two invariants of the collection are kept by every operation that writes,
    whether it succeeds or fails: every point sits under its own id, and a
    point that records a non-empty original id sits under the key derived from
    that id. *)
Theorem writes_keep_invariants (w : World) :
  well_keyed (points w) -> self_keyed (points w) ->
  (forall record : VectorRecord,
     well_keyed (points (snd (storeVector record w))) /\
     self_keyed (points (snd (storeVector record w)))) /\
  (forall records : list VectorRecord,
     well_keyed (points (snd (storeVectors records w))) /\
     self_keyed (points (snd (storeVectors records w)))) /\
  (forall id : string,
     well_keyed (points (snd (deleteVector id w))) /\
     self_keyed (points (snd (deleteVector id w)))).
Proof.
  intros Hwk Hsk. split; [|split].
  - intros record. destruct (storeVector_points record w) as [H|H]; rewrite H; [auto|].
    apply (insert_keeps_invariants (points w)
             (pointOf record (keyOf (vr_id record) w) (clock w)) Hwk Hsk).
    cbn [pointOf pt_id pt_payload original_id]. intros id Hid Hne.
    unfold keyOf. rewrite Hid. destruct id; [congruence|reflexivity].
  - intros records. destruct (storeVectors_points records w) as [H|(pts & Hpts & H)];
      rewrite H; [auto|].
    exact (upsert_keeps_invariants pts Hpts (points w) Hwk Hsk).
  - intros id. destruct (deleteVector_removes_at_most_one_aux id w) as [H|(k & H)];
      rewrite H; [auto|].
    exact (delete_keeps_invariants (points w) k Hwk Hsk).
Qed.

Lemma writes_keep_invariants_witness :
  (forall record : VectorRecord,
     well_keyed (points (snd (storeVector record quiet_world))) /\
     self_keyed (points (snd (storeVector record quiet_world)))) /\
  (forall records : list VectorRecord,
     well_keyed (points (snd (storeVectors records quiet_world))) /\
     self_keyed (points (snd (storeVectors records quiet_world)))) /\
  (forall id : string,
     well_keyed (points (snd (deleteVector id quiet_world))) /\
     self_keyed (points (snd (deleteVector id quiet_world)))).
Proof.
  apply (writes_keep_invariants quiet_world); [apply well_keyed_empty|apply self_keyed_empty].
Defined.

Lemma deleteVector_then_getVector_witness :
  exists w1 w2 : World,
    deleteVector "doc_001" (snd (storeVector doc_001 quiet_world)) = (Returned true, w1) /\
    getVector "doc_001" w1 = (Returned None, w2).
Proof.
  apply (deleteVector_then_getVector "doc_001" (snd (storeVector doc_001 quiet_world))).
  - discriminate.
  - apply well_keyed_storeVector, well_keyed_empty.
  - reflexivity.
  - reflexivity.
  - reflexivity.
Defined.

(** ** [storeVectors] *)





(** ** [generateEmbedding] and [generateEmbeddings] *)

Lemma generateEmbedding_world (text : string) (w : World) :
  snd (generateEmbedding text w)
  = if isInitialized w && negb (all_blank text) then fed text w else w.
Proof.
  unfold generateEmbedding, isInitialized.
  destruct (embedder w) as [pipeline|]; [|reflexivity].
  destruct (all_blank text); [reflexivity|].
  unfold try_catch, bind, run_pipeline. cbn [andb negb].
  destruct (pipeline text) as [[[|row rows]|[|x xs]|data|]|e]; reflexivity.
Qed.

Lemma generateEmbedding_outcome (text : string) (w1 w2 : World) :
  embedder w1 = embedder w2 ->
  fst (generateEmbedding text w1) = fst (generateEmbedding text w2).
Proof.
  intros H. unfold generateEmbedding. rewrite H.
  destruct (embedder w2) as [pipeline|]; [|reflexivity].
  destruct (all_blank text); [reflexivity|].
  unfold try_catch, bind, run_pipeline.
  destruct (pipeline text) as [[[|row rows]|[|x xs]|data|]|e]; reflexivity.
Qed.

Lemma generateEmbedding_returned (text : string) (w w' : World) (v : list float) :
  generateEmbedding text w = (Returned v, w') -> w' = fed text w.
Proof.
  intros H. pose proof (generateEmbedding_world text w) as Hw. rewrite H in Hw. cbn [snd] in Hw.
  unfold generateEmbedding, isInitialized in *.
  destruct (embedder w); [|discriminate H].
  destruct (all_blank text); [discriminate H|exact Hw].
Qed.

(** X15: [generateEmbedding] runs the pipeline at most once, on the text it was
    given, and exactly when the model is loaded and the text is not blank;
    nothing else in the world changes. In particular a blank text, or any text
    before the model is loaded, never reaches the pipeline, and the call
    throws. *)
Theorem generateEmbedding_runs_pipeline_once (text : string) (w : World) :
  (isInitialized w = true /\ all_blank text = false /\
   snd (generateEmbedding text w) = fed text w) \/
  ((isInitialized w = false \/ all_blank text = true) /\
   snd (generateEmbedding text w) = w /\
   exists message : string, fst (generateEmbedding text w) = Thrown message).
Proof.
  rewrite generateEmbedding_world. unfold generateEmbedding, isInitialized.
  destruct (embedder w) as [pipeline|].
  - destruct (all_blank text).
    + right. split; [right; reflexivity|]. split; [reflexivity|]. eexists. reflexivity.
    + left. repeat split.
  - right. split; [left; reflexivity|]. split; [reflexivity|]. eexists. reflexivity.
Qed.

Lemma mapM_generateEmbedding_returned (texts : list string) :
  forall (w w' : World) (vs : list (list float)),
    mapM generateEmbedding texts w = (Returned vs, w') ->
    List.Forall2 (fun text v => fst (generateEmbedding text w) = Returned v) texts vs /\
    embedded w' = List.rev texts ++ embedded w /\ embedder w' = embedder w.
Proof.
  induction texts as [|text texts IH]; intros w w' vs H.
  - inversion H; subst. repeat split. constructor.
  - cbn [mapM] in H. unfold bind at 1 in H.
    destruct (generateEmbedding text w) as [[v|e] w1] eqn:Hone; [|discriminate H].
    pose proof (generateEmbedding_returned text w w1 v Hone) as Hw1.
    unfold bind in H.
    destruct (mapM generateEmbedding texts w1) as [[rest|e] w2] eqn:Hrest; [|discriminate H].
    inversion H; subst vs w2. destruct (IH w1 w' rest Hrest) as (Hall & Hlog & Hemb).
    split; [|split].
    + constructor; [rewrite Hone; reflexivity|].
      eapply List.Forall2_impl; [|exact Hall]. cbn. intros t v' Ht.
      rewrite <- Ht. apply generateEmbedding_outcome. subst w1. reflexivity.
    + rewrite Hlog. subst w1. cbn [embedded fed List.rev]. rewrite <- app_assoc. reflexivity.
    + rewrite Hemb. subst w1. reflexivity.
Qed.

(** X16: When [generateEmbeddings] returns, it returns one embedding per text, in
    the order of the texts, each the one [generateEmbedding] gives for that
    text, and the pipeline was run once per text, in that order. *)
Theorem generateEmbeddings_in_order (texts : list string) (w w' : World) (vs : list (list float)) :
  generateEmbeddings texts w = (Returned vs, w') ->
  texts <> [] /\
  List.Forall2 (fun text v => fst (generateEmbedding text w) = Returned v) texts vs /\
  embedded w' = List.rev texts ++ embedded w.
Proof.
  intros H. destruct texts as [|text texts]; [discriminate H|].
  split; [discriminate|].
  destruct (mapM_generateEmbedding_returned (text :: texts) w w' vs H) as (Hall & Hlog & _).
  split; assumption.
Qed.

Lemma generateEmbeddings_in_order_witness :
  ["sunlight"; "energy"] <> [] /\
  List.Forall2 (fun text v => fst (generateEmbedding text ready_world) = Returned v)
    ["sunlight"; "energy"] [unit_vector; unit_vector] /\
  embedded (snd (generateEmbeddings ["sunlight"; "energy"] ready_world))
  = List.rev ["sunlight"; "energy"] ++ embedded ready_world.
Proof.
  apply (generateEmbeddings_in_order ["sunlight"; "energy"] ready_world
           (snd (generateEmbeddings ["sunlight"; "energy"] ready_world))
           [unit_vector; unit_vector]).
  vm_compute. reflexivity.
Defined.

Lemma mapM_generateEmbedding_aborts (before : list string) :
  forall (bad : string) (after : list string) (w : World) (message : string),
    List.Forall (fun text => exists v, fst (generateEmbedding text w) = Returned v) before ->
    fst (generateEmbedding bad w) = Thrown message ->
    exists (ran : list string) (w' : World),
      mapM generateEmbedding (before ++ bad :: after) w = (Thrown message, w') /\
      (ran = [] \/ ran = [bad]) /\
      embedded w' = ran ++ List.rev before ++ embedded w.
Proof.
  induction before as [|text before IH]; intros bad after w message Hgood Hbad.
  - cbn [app mapM]. unfold bind at 1.
    pose proof (generateEmbedding_world bad w) as Hw.
    destruct (generateEmbedding bad w) as [[v|e] w1]; cbn [fst snd] in *; [discriminate Hbad|].
    inversion Hbad; subst e.
    destruct (isInitialized w && negb (all_blank bad)); subst w1.
    + exists [bad]. eexists. split; [reflexivity|]. split; [right; reflexivity|reflexivity].
    + exists []. eexists. split; [reflexivity|]. split; [left; reflexivity|reflexivity].
  - inversion Hgood as [|? ? (v & Hv) Hrest]; subst.
    cbn [app mapM]. unfold bind at 1.
    destruct (generateEmbedding text w) as [[v'|e] w1] eqn:Hone; cbn [fst] in Hv; [|discriminate Hv].
    pose proof (generateEmbedding_returned text w w1 v' Hone) as Hw1.
    assert (Hsame : embedder w1 = embedder w) by (subst w1; reflexivity).
    destruct (IH bad after w1 message) as (ran & w2 & Hthrow & Hran & Hlog).
    + eapply List.Forall_impl; [|exact Hrest]. cbn. intros t (v0 & Ht). exists v0.
      rewrite <- Ht. apply generateEmbedding_outcome. exact Hsame.
    + rewrite <- Hbad. apply generateEmbedding_outcome. exact Hsame.
    + unfold bind. rewrite Hthrow. exists ran, w2. split; [reflexivity|]. split; [exact Hran|].
      rewrite Hlog. subst w1. cbn [embedded fed List.rev]. rewrite <- app_assoc. reflexivity.
Qed.

(** X17: [generateEmbeddings] stops at the first text that fails: it throws that
    text's error as it is, returns no embedding at all, and the pipeline is
    never run on the texts that follow. *)
Theorem generateEmbeddings_aborts (before after : list string) (bad : string) (w : World)
    (message : string) :
  List.Forall (fun text => exists v, fst (generateEmbedding text w) = Returned v) before ->
  fst (generateEmbedding bad w) = Thrown message ->
  fst (generateEmbeddings (before ++ bad :: after) w) = Thrown message /\
  exists ran : list string,
    (ran = [] \/ ran = [bad]) /\
    embedded (snd (generateEmbeddings (before ++ bad :: after) w))
    = ran ++ List.rev before ++ embedded w.
Proof.
  intros Hgood Hbad.
  assert (Heq : generateEmbeddings (before ++ bad :: after) w
                = mapM generateEmbedding (before ++ bad :: after) w).
  { unfold generateEmbeddings. destruct (before ++ bad :: after) eqn:E; [|reflexivity].
    destruct before; discriminate E. }
  rewrite Heq.
  destruct (mapM_generateEmbedding_aborts before bad after w message Hgood Hbad)
    as (ran & w' & Hthrow & Hran & Hlog).
  rewrite Hthrow. split; [reflexivity|]. exists ran. split; assumption.
Qed.

Lemma generateEmbeddings_aborts_witness :
  fst (generateEmbeddings (["sunlight"] ++ "boom" :: ["energy"]) ready_world)
    = Thrown "Failed to generate embedding: out of memory" /\
  exists ran : list string,
    (ran = [] \/ ran = ["boom"]) /\
    embedded (snd (generateEmbeddings (["sunlight"] ++ "boom" :: ["energy"]) ready_world))
    = ran ++ List.rev ["sunlight"] ++ embedded ready_world.
Proof.
  apply (generateEmbeddings_aborts ["sunlight"] ["energy"] "boom" ready_world).
  - constructor; [|constructor]. exists unit_vector. vm_compute. reflexivity.
  - vm_compute. reflexivity.
Defined.

(** ** The embedding handlers *)

Lemma storeVector_returned_length (record : VectorRecord) (w w' : World) (id : string) :
  storeVector record w = (Returned id, w') -> List.length (vr_embedding record) = 384.
Proof.
  intros H. destruct (Nat.eq_dec (List.length (vr_embedding record)) 384) as [E|E]; [exact E|].
  rewrite (storeVector_rejected record w E) in H. discriminate H.
Qed.

(** X18: [POST /embed] always replies, with one of three statuses. 201: the text was
    embedded and stored, and the reply carries the text, its metadata and an
    embedding of 384 numbers. 400: the text was blank, and nothing was touched.
    500: anything else; the reply then carries no id, text or embedding. *)
Theorem post_embed_reply (body : EmbeddingRequest) (w : World) :
  exists (status : nat) (response : EmbeddingResponse) (w' : World),
    post_embed body w = (Returned (status, response), w') /\
    ((status = 201 /\ em_success response = true /\ em_text response = er_text body /\
      List.length (em_embedding response) = 384 /\ em_metadata response = er_metadata body) \/
     (status = 400 /\ all_blank (er_text body) = true /\
      response = not_stored (or_else (er_id body) "") "" ∅ /\ w' = w) \/
     (status = 500 /\ all_blank (er_text body) = false /\ response = not_stored "" "" ∅)).
Proof.
  unfold post_embed, try_catch, bind.
  destruct (all_blank (er_text body)) eqn:Hblank.
  - do 3 eexists. split; [reflexivity|]. right. left. repeat split.
  - destruct (generateEmbedding (er_text body) w) as [[embedding|e] w1].
    + destruct (storeVector _ w1) as [[recordId|e] w2] eqn:Hstore.
      * do 3 eexists. split; [reflexivity|]. left. repeat split.
        exact (storeVector_returned_length _ _ _ _ Hstore).
      * do 3 eexists. split; [reflexivity|]. right. right. repeat split.
    + do 3 eexists. split; [reflexivity|]. right. right. repeat split.
Qed.

Lemma truthy_idempotent (o : option string) : truthy (truthy o) = truthy o.
Proof. destruct o as [[|c s]|]; reflexivity. Qed.

(** X19: What [POST /embed] stored, [GET /embed/:id] returns: with a model that
    embeds the text into 384 numbers and a store that answers, the reply is
    201, and a GET with the id of that reply is a 200 carrying the same text,
    embedding and metadata under the same id, which is the request's id when
    it had one. *)
Theorem post_embed_then_get_embed (body : EmbeddingRequest) (w : World) (v : list float) :
  fst (generateEmbedding (er_text body) w) = Returned v ->
  List.length v = 384 ->
  faults w (List.length (requests w)) = None ->
  faults w (S (List.length (requests w))) = None ->
  exists (id : string) (w1 w2 : World) (record : VectorRecord),
    post_embed body w =
      (Returned (201, {| em_id := id; em_text := er_text body; em_embedding := v;
                         em_metadata := er_metadata body; em_success := true |}), w1) /\
    get_embed id w1 = (Returned (200, ItemFound record), w2) /\
    vr_id record = Some id /\
    vr_text record = er_text body /\
    vr_embedding record = v /\
    vr_metadata record = Some (default ∅ (er_metadata body)) /\
    (forall s : string, er_id body = Some s -> s <> "" -> id = s).
Proof.
  intros Hv Hlen Hok0 Hok1.
  destruct (generateEmbedding (er_text body) w) as [o wg] eqn:Hgen. cbn [fst] in Hv. subst o.
  pose proof (generateEmbedding_returned _ _ _ _ Hgen) as Hwg.
  assert (Hblank : all_blank (er_text body) = false).
  { unfold generateEmbedding in Hgen. destruct (embedder w); [|discriminate Hgen].
    destruct (all_blank (er_text body)); [discriminate Hgen|reflexivity]. }
  set (record := {| vr_id := truthy (er_id body); vr_text := er_text body; vr_embedding := v;
                    vr_metadata := er_metadata body |}).
  assert (Hstore := storeVector_stored record wg Hlen).
  assert (Hokg : faults wg (List.length (requests wg)) = None) by (subst wg; exact Hok0).
  specialize (Hstore Hokg).
  set (key := keyOf (vr_id record) wg) in *.
  set (p := pointOf record key (clock wg)) in *.
  set (w1 := with_points (<[key := p]> (points wg)) (sent (Upsert [p]) (afterKey (vr_id record) wg))) in *.
  destruct (afterKey_store (vr_id record) wg) as (_ & Hr & Hf & _).
  exists (or_else (vr_id record) key), w1, (sent (Retrieve [key]) w1), (to_record p).
  split.
  { unfold post_embed, try_catch, bind. rewrite Hblank, Hgen. fold record. rewrite Hstore.
    reflexivity. }
  split.
  { unfold get_embed, try_catch, bind. erewrite getVector_direct; [reflexivity| | |].
    - apply returned_id_resolves.
    - subst w1. cbn [points with_points]. apply lookup_insert_eq.
    - subst w1. cbn [faults requests with_points sent List.length]. rewrite Hf, Hr.
      subst wg. exact Hok1. }
  split; [reflexivity|]. split; [reflexivity|]. split; [reflexivity|]. split; [reflexivity|].
  intros s Hs Hne. cbn [vr_id record]. unfold or_else. rewrite truthy_idempotent, Hs.
  destruct s; [congruence|reflexivity].
Qed.

Lemma post_embed_then_get_embed_witness :
  exists (id : string) (w1 w2 : World) (record : VectorRecord),
    post_embed {| er_text := "sunlight"; er_id := Some "doc_001"; er_metadata := None |} ready_world =
      (Returned (201, {| em_id := id; em_text := "sunlight"; em_embedding := unit_vector;
                         em_metadata := None; em_success := true |}), w1) /\
    get_embed id w1 = (Returned (200, ItemFound record), w2) /\
    vr_id record = Some id /\
    vr_text record = "sunlight" /\
    vr_embedding record = unit_vector /\
    vr_metadata record = Some (default ∅ None) /\
    (forall s : string, Some "doc_001" = Some s -> s <> "" -> id = s).
Proof.
  apply (post_embed_then_get_embed
           {| er_text := "sunlight"; er_id := Some "doc_001"; er_metadata := None |}
           ready_world unit_vector); reflexivity.
Defined.





Example post_embed_batch_sample :
  match fst (post_embed_batch
               [ {| er_text := "sunlight"; er_id := Some "doc_001"; er_metadata := None |};
                 {| er_text := "   "; er_id := Some "doc_002"; er_metadata := None |};
                 {| er_text := "boom"; er_id := None; er_metadata := None |};
                 {| er_text := "energy"; er_id := None; er_metadata := None |} ] ready_world) with
  | Returned (status, reply) =>
      (status, List.map em_success (bt_results reply), List.map em_id (bt_results reply))
  | Thrown _ => (0, [], [])
  end
  = (201, [true; false; false; true],
     ["doc_001"; "doc_002"; ""; "00000000-0000-4000-8000-000000000000"]).
Proof. vm_compute. reflexivity. Qed.

(** ** The search handlers *)

Lemma generateEmbedding_points (text : string) (w : World) :
  points (snd (generateEmbedding text w)) = points w.
Proof.
  rewrite generateEmbedding_world.
  destruct (isInitialized w && negb (all_blank text)); reflexivity.
Qed.

(** X21: [POST /query] always replies and never changes the collection, and its
    status says what happened. A blank query gets 400, and nothing is touched.
    A query that is not blank gets 200, with the results of the search and the
    query echoed, exactly when the embedding and the search both return; it
    gets 500, with no result, exactly when one of them throws. *)
Theorem post_query_reply (body : QueryRequest) (w : World) :
  exists (status : nat) (response : QueryResponse) (w' : World),
    post_query body w = (Returned (status, response), w') /\
    points w' = points w /\
    ((all_blank (q_query body) = true /\ w' = w /\ status = 400 /\
      response = {| resp_results := []; resp_query := ""; resp_success := false |}) \/
     (all_blank (q_query body) = false /\
      (exists (v : list float) (w1 : World) (results : list QueryResult),
         generateEmbedding (q_query body) w = (Returned v, w1) /\
         search v (default 10%float (q_limit body)) (default 0%float (q_threshold body)) w1
         = (Returned results, w') /\
         response = {| resp_results := results; resp_query := q_query body;
                       resp_success := true |}) /\
      status = 200) \/
     (all_blank (q_query body) = false /\
      ((exists message : string,
          generateEmbedding (q_query body) w = (Thrown message, w')) \/
       (exists (v : list float) (w1 : World) (message : string),
          generateEmbedding (q_query body) w = (Returned v, w1) /\
          search v (default 10%float (q_limit body)) (default 0%float (q_threshold body)) w1
          = (Thrown message, w'))) /\
      status = 500 /\
      response = {| resp_results := []; resp_query := ""; resp_success := false |})).
Proof.
  unfold post_query, try_catch, bind.
  destruct (all_blank (q_query body)).
  - do 3 eexists. split; [reflexivity|]. split; [reflexivity|]. left. repeat split.
  - pose proof (generateEmbedding_points (q_query body) w) as Hp.
    destruct (generateEmbedding (q_query body) w) as [[v|e] w1]; cbn [snd] in Hp.
    + unfold search.
      match goal with
      | |- context [searchSimilar v ?l ?t w1] =>
          destruct (searchSimilar_reads v l t w1) as (Hp1 & _);
          destruct (searchSimilar v l t w1) as [[results|e] w2] eqn:Hsearch
      end; cbn [snd] in Hp1.
      * do 3 eexists. split; [reflexivity|]. split; [congruence|]. right. left.
        split; [reflexivity|]. split; [|reflexivity].
        exists v, w1, results. split; [reflexivity|]. split; [exact Hsearch|reflexivity].
      * do 3 eexists. split; [reflexivity|]. split; [congruence|]. right. right.
        split; [reflexivity|]. split; [|split; reflexivity].
        right. exists v, w1, e. split; [reflexivity|exact Hsearch].
    + do 3 eexists. split; [reflexivity|]. split; [exact Hp|]. right. right.
      split; [reflexivity|]. split; [|split; reflexivity].
      left. exists e. reflexivity.
Qed.

(** X22: [POST /query/similar/:id] always replies and never changes the
    collection, no result of the reply carries the id of the request, and its
    status says what happened. It is 404, with no result and no search made,
    exactly when [getVector] found nothing for the id; 200, with the results of
    the search from which those that carry the id are filtered out, exactly
    when [getVector] found a record and the search with its embedding returned;
    500, with no result, exactly when [getVector] or the search threw. *)
Theorem post_similar_reply (id : string) (limit threshold : option float) (w : World) :
  exists (status : nat) (response : QueryResponse) (w' : World),
    post_similar id limit threshold w = (Returned (status, response), w') /\
    points w' = points w /\
    List.Forall (fun result => qr_id result <> id) (resp_results response) /\
    ((getVector id w = (Returned None, w') /\ status = 404 /\
      response = {| resp_results := []; resp_query := "Vector with ID: " +:+ id;
                    resp_success := false |}) \/
     ((exists (record : VectorRecord) (w1 : World) (results : list QueryResult),
         getVector id w = (Returned (Some record), w1) /\
         search (vr_embedding record) (default 10%float limit) (default 0%float threshold) w1
         = (Returned results, w') /\
         resp_results response
         = List.filter (fun result => negb (String.eqb (qr_id result) id)) results) /\
      status = 200 /\ resp_success response = true) \/
     (((exists message : string, getVector id w = (Thrown message, w')) \/
       (exists (record : VectorRecord) (w1 : World) (message : string),
          getVector id w = (Returned (Some record), w1) /\
          search (vr_embedding record) (default 10%float limit) (default 0%float threshold) w1
          = (Thrown message, w'))) /\
      status = 500 /\
      response = {| resp_results := []; resp_query := ""; resp_success := false |})).
Proof.
  destruct (post_similar id limit threshold w) as [[[status response]|e] w'] eqn:Hrun.
  - exists status, response, w'. split; [reflexivity|].
    assert (Hids : List.Forall (fun result => qr_id result <> id) (resp_results response)).
    { apply List.Forall_forall. exact (post_similar_excludes_param _ _ _ _ _ _ _ Hrun). }
    revert Hrun. unfold post_similar, try_catch, bind.
    destruct (getVector_reads id w) as (Hp & _).
    destruct (getVector id w) as [[[record|]|e] w1]; cbn [snd] in Hp.
    + unfold search.
      match goal with
      | |- context [searchSimilar ?v ?l ?t w1] =>
          destruct (searchSimilar_reads v l t w1) as (Hp1 & _);
          destruct (searchSimilar v l t w1) as [[results|e] w2] eqn:Hsearch
      end; cbn [snd] in Hp1; intros H; inversion H; subst.
      * split; [congruence|]. split; [exact Hids|]. right. left.
        split; [|split; reflexivity]. exists record, w1, results.
        split; [reflexivity|]. split; [exact Hsearch|reflexivity].
      * split; [congruence|]. split; [exact Hids|]. right. right.
        split; [|split; reflexivity]. right. exists record, w1, e.
        split; [reflexivity|exact Hsearch].
    + intros H. inversion H; subst. split; [exact Hp|]. split; [exact Hids|].
      left. repeat split.
    + intros H. inversion H; subst. split; [exact Hp|]. split; [exact Hids|].
      right. right. split; [|split; reflexivity]. left. exists e. reflexivity.
  - exfalso. revert Hrun. unfold post_similar, try_catch, bind, ret.
    destruct (getVector id w) as [[[record|]|e0] w1]; try discriminate.
    destruct (search _ _ _ w1) as [[results|e0] w2]; discriminate.
Qed.

(** X23: Values inside the bounds go through the handlers' search as they are: with
    a limit below 100 and a threshold above 0, it is the service's search with
    that limit and that threshold. *)
Theorem search_in_range (v : list float) (limit threshold : float) (w : World) :
  (limit <? 100)%float = true ->
  (0 <? threshold)%float = true ->
  search v limit threshold w = searchSimilar v limit threshold w.
Proof.
  intros Hlimit Hthreshold. unfold search, Math_min, Math_max.
  rewrite (ltb_not_nan_l limit 100 Hlimit), (ltb_not_nan_r 0 threshold Hthreshold).
  rewrite Hlimit, Hthreshold.
  assert (H1 : is_nan 100 = false) by (vm_compute; reflexivity).
  assert (H2 : is_nan 0 = false) by (vm_compute; reflexivity).
  rewrite H1, H2. reflexivity.
Qed.

Lemma search_in_range_witness :
  search unit_vector 5 0.5 quiet_world = searchSimilar unit_vector 5 0.5 quiet_world.
Proof. apply (search_in_range unit_vector 5 0.5 quiet_world); reflexivity. Defined.

(** ** The handlers of one record *)

(** X24: [GET /embed/:id] always replies, never changes the collection, and says
    what [getVector] said: 200 with the record, 404 when there is none, 500
    when [getVector] threw. *)
Theorem get_embed_reply (id : string) (w : World) :
  exists (status : nat) (reply : ItemReply) (w' : World),
    get_embed id w = (Returned (status, reply), w') /\
    points w' = points w /\
    ((exists record : VectorRecord,
        getVector id w = (Returned (Some record), w') /\
        status = 200 /\ reply = ItemFound record) \/
     (getVector id w = (Returned None, w') /\
      status = 404 /\ reply = ItemMessage false "Vector not found") \/
     (exists message : string,
        getVector id w = (Thrown message, w') /\
        status = 500 /\ reply = ItemMessage false "Internal server error")).
Proof.
  unfold get_embed, try_catch, bind.
  destruct (getVector_reads id w) as (Hp & _).
  destruct (getVector id w) as [[[record|]|message] w1]; cbn [snd] in Hp;
    do 3 eexists; (split; [reflexivity|]); (split; [exact Hp|]).
  - left. exists record. repeat split.
  - right. left. repeat split.
  - right. right. exists message. repeat split.
Qed.

(** X25: [DELETE /embed/:id] always replies and removes at most one key. Whenever
    the store answers the delete request the reply is 200, whether or not the
    id addressed a record; 404 is only sent after the store refused that
    request. *)
Theorem delete_embed_reply (id : string) (w : World) :
  exists (status : nat) (reply : ItemReply) (w' : World),
    delete_embed id w = (Returned (status, reply), w') /\
    (points w' = points w \/ exists k : string, points w' = delete k (points w)) /\
    ((status = 200 /\
      reply = ItemMessage true ("Vector " +:+ id +:+ " deleted successfully")) \/
     (status = 404 /\ reply = ItemMessage false "Vector not found" /\
      faults w (List.length (requests w)) <> None) \/
     (status = 500 /\ reply = ItemMessage false "Internal server error")) /\
    (faults w (List.length (requests w)) = None -> status = 200).
Proof.
  unfold delete_embed, try_catch, bind.
  pose proof (deleteVector_removes_at_most_one_aux id w) as Hp.
  pose proof (deleteVector_answered id w) as Hok.
  pose proof (deleteVector_false_refused id w) as Hno.
  destruct (deleteVector id w) as [[[|]|message] w1]; cbn [snd] in Hp;
    do 3 eexists; (split; [reflexivity|]); (split; [exact Hp|]); split.
  - left. split; reflexivity.
  - intros _. reflexivity.
  - right. left. repeat split. exact (Hno w1 eq_refl).
  - intros H. specialize (Hok H). discriminate Hok.
  - right. right. split; reflexivity.
  - intros H. specialize (Hok H). discriminate Hok.
Qed.

(** ** Which ids are rewritten *)

(** A non-empty id is used as storage key exactly when it has the form of a
    UUID; the key is 36 characters long. *)
Theorem convertToValidId_keeps_uuids_only (id : string) (w : World) :
  id <> "" ->
  (convertToValidId (Some id) w = (Returned id, w) <-> uuidRegex_test id = true) /\
  (exists key : string,
     convertToValidId (Some id) w = (Returned key, w) /\ String.length key = 36).
Proof.
  intros Hne. rewrite (convertToValidId_given id w Hne). split.
  - split.
    + intros H. apply storageKey_self. congruence.
    + intros H. apply storageKey_self in H. rewrite H. reflexivity.
  - exists (storageKey id). split; [reflexivity|].
    pose proof (storageKey_format id) as H. unfold uuidRegex_test in H.
    apply matches_length in H. rewrite H. reflexivity.
Qed.

Lemma convertToValidId_keeps_uuids_only_witness :
  (convertToValidId (Some "doc_001") quiet_world = (Returned "doc_001", quiet_world)
   <-> uuidRegex_test "doc_001" = true) /\
  (exists key : string,
     convertToValidId (Some "doc_001") quiet_world = (Returned key, quiet_world) /\
     String.length key = 36).
Proof. apply (convertToValidId_keeps_uuids_only "doc_001" quiet_world). discriminate. Defined.

(** ** Loading the model *)

Lemma generateEmbedding_loaded (pipeline : string -> Outcome PipelineOutput) (w : World)
    (text : string) :
  all_blank text = false ->
  embedded (snd (generateEmbedding text (loaded pipeline w))) = text :: embedded w /\
  (forall data : list float,
     pipeline text = Returned (TensorLike data) ->
     fst (generateEmbedding text (loaded pipeline w)) = Returned data).
Proof.
  intros Hblank. unfold generateEmbedding, try_catch, bind, run_pipeline.
  cbn [embedder loaded]. rewrite Hblank. split.
  - destruct (pipeline text) as [[[|row rows]|[|x xs]|data|]|e]; reflexivity.
  - intros data Hdata. rewrite Hdata. reflexivity.
Qed.

(** X26: After an [initialize] that returned, the service is initialized and
    [generateEmbedding] runs, on a text that is not blank, the model that was
    loaded: the local one when it loaded, the remote one otherwise. Certificate
    checking is switched off exactly when the local model failed to load. *)
Theorem initialize_then_generateEmbedding
    (local remote : Outcome (string -> Outcome PipelineOutput)) (p p' : Process) (text : string) :
  embedding_initialize local remote p = (Returned tt, p') ->
  all_blank text = false ->
  exists pipeline : string -> Outcome PipelineOutput,
    ((local = Returned pipeline /\ tls_reject_unauthorized p' = tls_reject_unauthorized p) \/
     ((exists message : string, local = Thrown message) /\ remote = Returned pipeline /\
      tls_reject_unauthorized p' = Some "0")) /\
    isInitialized (proc_world p') = true /\
    points (proc_world p') = points (proc_world p) /\
    embedded (snd (generateEmbedding text (proc_world p'))) = text :: embedded (proc_world p) /\
    (forall data : list float,
       pipeline text = Returned (TensorLike data) ->
       fst (generateEmbedding text (proc_world p')) = Returned data).
Proof.
  intros Hinit Hblank. unfold embedding_initialize in Hinit.
  destruct local as [pipeline|message]; [|destruct remote as [pipeline|message']];
    inversion Hinit; subst; clear Hinit; exists pipeline;
    cbn [proc_world tls_reject_unauthorized].
  - split; [left; split; reflexivity|].
    split; [reflexivity|]. split; [reflexivity|].
    apply generateEmbedding_loaded. exact Hblank.
  - split; [right; split; [exists message; reflexivity|split; reflexivity]|].
    split; [reflexivity|]. split; [reflexivity|].
    apply generateEmbedding_loaded. exact Hblank.
Qed.

Lemma initialize_then_generateEmbedding_witness :
  exists pipeline : string -> Outcome PipelineOutput,
    ((Thrown (A := string -> Outcome PipelineOutput) "no such file" = Returned pipeline /\
      Some "0" = None) \/
     ((exists message : string,
         Thrown (A := string -> Outcome PipelineOutput) "no such file" = Thrown message) /\
      Returned sample_pipeline = Returned pipeline /\
      Some "0" = Some "0")) /\
    isInitialized ready_world = true /\
    points ready_world = points quiet_world /\
    embedded (snd (generateEmbedding "sunlight" ready_world)) = "sunlight" :: embedded quiet_world /\
    (forall data : list float,
       pipeline "sunlight" = Returned (TensorLike data) ->
       fst (generateEmbedding "sunlight" ready_world) = Returned data).
Proof.
  apply (initialize_then_generateEmbedding (Thrown "no such file") (Returned sample_pipeline)
           {| proc_world := quiet_world; tls_reject_unauthorized := None |}
           {| proc_world := ready_world; tls_reject_unauthorized := Some "0" |} "sunlight");
    reflexivity.
Defined.

(** X27: When [initialize] throws, both loads failed; the error carries the message
    of the remote load, certificate checking stays switched off, and a service
    that was not initialized before still refuses to embed. *)
Theorem initialize_failed (local remote : Outcome (string -> Outcome PipelineOutput))
    (p p' : Process) (message text : string) :
  embedding_initialize local remote p = (Thrown message, p') ->
  (exists cause : string,
     remote = Thrown cause /\ message = "Failed to initialize embedding model: " +:+ cause) /\
  (exists cause : string, local = Thrown cause) /\
  tls_reject_unauthorized p' = Some "0" /\
  proc_world p' = proc_world p /\
  (isInitialized (proc_world p) = false ->
   generateEmbedding text (proc_world p')
   = (Thrown "Embedding model not initialized. Call initialize() first.", proc_world p')).
Proof.
  intros Hinit. unfold embedding_initialize in Hinit.
  destruct local as [pipeline|cause0]; [discriminate Hinit|].
  destruct remote as [pipeline|cause]; [discriminate Hinit|].
  inversion Hinit; subst; clear Hinit. cbn [proc_world tls_reject_unauthorized].
  split; [exists cause; split; reflexivity|].
  split; [exists cause0; reflexivity|].
  split; [reflexivity|]. split; [reflexivity|].
  unfold isInitialized, generateEmbedding. destruct (embedder (proc_world p)); [discriminate|].
  reflexivity.
Qed.

Lemma initialize_failed_witness :
  (exists cause : string,
     Thrown (A := string -> Outcome PipelineOutput) "fetch failed" = Thrown cause /\
     "Failed to initialize embedding model: fetch failed"
     = "Failed to initialize embedding model: " +:+ cause) /\
  (exists cause : string,
     Thrown (A := string -> Outcome PipelineOutput) "no such file" = Thrown cause) /\
  Some "0" = Some "0" /\
  quiet_world = quiet_world /\
  (isInitialized quiet_world = false ->
   generateEmbedding "sunlight" quiet_world
   = (Thrown "Embedding model not initialized. Call initialize() first.", quiet_world)).
Proof.
  apply (initialize_failed (Thrown "no such file") (Thrown "fetch failed")
           {| proc_world := quiet_world; tls_reject_unauthorized := None |}
           {| proc_world := quiet_world; tls_reject_unauthorized := Some "0" |}
           "Failed to initialize embedding model: fetch failed" "sunlight").
  reflexivity.
Defined.

(** ** Administration *)

Section AdministrationProperties.

Variable getCollections : Js (option (list string)).
Variable createCollection : string -> nat -> string -> Js unit.
Variable getCollection : string -> Js CollectionInfo.

Lemma existsb_collectionName (cols : list string) :
  List.In collectionName cols ->
  List.existsb (fun name => String.eqb name collectionName) cols = true.
Proof.
  intros H. apply List.existsb_exists. exists collectionName. split; [exact H|].
  apply String.eqb_refl.
Qed.

(** X28: When the collection is listed, [initialize] creates nothing: it runs the
    same whatever [createCollection] would do, and it returns exactly when
    [getCollection] does. *)
Theorem vector_initialize_existing (cols : list string) (w w1 : World) :
  getCollections w = (Returned (Some cols), w1) ->
  List.In collectionName cols ->
  (forall create : string -> nat -> string -> Js unit,
     vector_initialize getCollections create getCollection w
     = vector_initialize getCollections createCollection getCollection w) /\
  (forall (info : CollectionInfo) (w2 : World),
     getCollection collectionName w1 = (Returned info, w2) ->
     vector_initialize getCollections createCollection getCollection w = (Returned tt, w2)) /\
  (forall (message : string) (w2 : World),
     getCollection collectionName w1 = (Thrown message, w2) ->
     vector_initialize getCollections createCollection getCollection w
     = (Thrown ("Failed to initialize vector database: " +:+ message), w2)).
Proof.
  intros Hlist Hin. unfold vector_initialize, try_catch, bind.
  rewrite Hlist, (existsb_collectionName cols Hin). cbn [negb ret].
  split; [reflexivity|]. split.
  - intros info w2 H. rewrite H. reflexivity.
  - intros message w2 H. rewrite H. reflexivity.
Qed.

(** X29: When the collection is not listed, or the reply lists nothing,
    [initialize] creates it with 384 dimensions and the cosine distance before
    it asks for it; if the creation fails, [getCollection] is not called and
    the error is wrapped. *)
Theorem vector_initialize_missing (collections : option (list string)) (w w1 : World) :
  getCollections w = (Returned collections, w1) ->
  (forall cols : list string, collections = Some cols -> ~ List.In collectionName cols) ->
  (forall (message : string) (w2 : World),
     createCollection collectionName 384 "Cosine" w1 = (Thrown message, w2) ->
     vector_initialize getCollections createCollection getCollection w
     = (Thrown ("Failed to initialize vector database: " +:+ message), w2)) /\
  (forall (w2 w3 : World) (info : CollectionInfo),
     createCollection collectionName 384 "Cosine" w1 = (Returned tt, w2) ->
     getCollection collectionName w2 = (Returned info, w3) ->
     vector_initialize getCollections createCollection getCollection w = (Returned tt, w3)).
Proof.
  intros Hlist Hnot. unfold vector_initialize, try_catch, bind. rewrite Hlist.
  assert (Hex : match collections with
                | Some cols => List.existsb (fun name => String.eqb name collectionName) cols
                | None => false
                end = false).
  { destruct collections as [cols|]; [|reflexivity].
    destruct (List.existsb _ cols) eqn:E; [|reflexivity].
    apply List.existsb_exists in E as (name & Hin & Heq).
    apply String.eqb_eq in Heq. subst name. destruct (Hnot cols eq_refl Hin). }
  rewrite Hex. cbn [negb]. unfold vectorSize. split.
  - intros message w2 H. rewrite H. reflexivity.
  - intros w2 w3 info H1 H2. rewrite H1, H2. reflexivity.
Qed.

(** X30: [GET /query/health] always replies, and never with the error body: 200
    exactly when [getCollections] returned and the model is loaded, 503
    otherwise, with both flags in the body. *)
Theorem get_health_reply (w : World) :
  exists (status : nat) (health : Health) (w' : World),
    get_health getCollections w = (Returned (status, health), w') /\
    w' = snd (getCollections w) /\
    h_error health = None /\
    h_vectorDatabase health
      = Some (match fst (getCollections w) with Returned _ => true | Thrown _ => false end) /\
    h_embeddingModel health = Some (isInitialized w') /\
    h_healthy health
      = (match fst (getCollections w) with Returned _ => true | Thrown _ => false end)
        && isInitialized w' /\
    status = (if h_healthy health then 200 else 503).
Proof.
  unfold get_health, healthCheck, try_catch, bind, now, ret.
  destruct (getCollections w) as [[collections|message] w1]; cbn [fst snd];
    destruct (isInitialized w1) eqn:E; do 3 eexists;
    (split; [rewrite ?E; reflexivity|]); cbn [h_error h_vectorDatabase h_embeddingModel h_healthy andb];
    rewrite ?E; repeat split.
Qed.

(** [GET /query/stats] always replies: 200 with the count of the collection (0
    when the reply has none), its status and its configuration; 500 with a
    fixed message, whatever the error was, when [getCollection] threw. *)
Theorem get_stats_reply (w : World) :
  exists (status : nat) (reply : StatsReply) (w' : World),
    get_stats getCollection w = (Returned (status, reply), w') /\
    ((exists info : CollectionInfo,
        getCollection collectionName w = (Returned info, w') /\
        status = 200 /\
        reply = StatsOk {| st_collection := "drab_embeddings";
                           st_vectorsCount := default 0 (points_count info);
                           st_status := ci_status info; st_config := ci_config info |}) \/
     (exists message : string,
        getCollection collectionName w = (Thrown message, w') /\
        getStats getCollection w = (Thrown ("Failed to get collection stats: " +:+ message), w') /\
        status = 500 /\ reply = StatsFailed "Failed to get database statistics")).
Proof.
  unfold get_stats, getStats, try_catch, bind, ret, throw.
  destruct (getCollection collectionName w) as [[info|message] w1]; do 3 eexists;
    (split; [reflexivity|]).
  - left. exists info. repeat split.
  - right. exists message. repeat split.
Qed.

End AdministrationProperties.

Lemma vector_initialize_existing_witness :
  (forall create : string -> nat -> string -> Js unit,
     vector_initialize (ret (Some ["other"; "drab_embeddings"])) create
       (fun _ => ret {| points_count := None; ci_status := "green"; ci_config := "{}" |})
       quiet_world
     = vector_initialize (ret (Some ["other"; "drab_embeddings"]))
         (fun _ _ _ => throw "forbidden")
         (fun _ => ret {| points_count := None; ci_status := "green"; ci_config := "{}" |})
         quiet_world) /\
  (forall (info : CollectionInfo) (w2 : World),
     ret {| points_count := None; ci_status := "green"; ci_config := "{}" |} quiet_world
     = (Returned info, w2) ->
     vector_initialize (ret (Some ["other"; "drab_embeddings"]))
       (fun _ _ _ => throw "forbidden")
       (fun _ => ret {| points_count := None; ci_status := "green"; ci_config := "{}" |})
       quiet_world = (Returned tt, w2)) /\
  (forall (message : string) (w2 : World),
     ret {| points_count := None; ci_status := "green"; ci_config := "{}" |} quiet_world
     = (Thrown message, w2) ->
     vector_initialize (ret (Some ["other"; "drab_embeddings"]))
       (fun _ _ _ => throw "forbidden")
       (fun _ => ret {| points_count := None; ci_status := "green"; ci_config := "{}" |})
       quiet_world
     = (Thrown ("Failed to initialize vector database: " +:+ message), w2)).
Proof.
  apply (vector_initialize_existing (ret (Some ["other"; "drab_embeddings"]))
           (fun _ _ _ => throw "forbidden")
           (fun _ => ret {| points_count := None; ci_status := "green"; ci_config := "{}" |})
           ["other"; "drab_embeddings"] quiet_world quiet_world).
  - reflexivity.
  - right. left. reflexivity.
Defined.

Lemma vector_initialize_missing_witness :
  (forall (message : string) (w2 : World),
     throw (A := unit) "forbidden" quiet_world = (Thrown message, w2) ->
     vector_initialize (ret None) (fun _ _ _ => throw "forbidden")
       (fun _ => ret {| points_count := None; ci_status := "green"; ci_config := "{}" |})
       quiet_world
     = (Thrown ("Failed to initialize vector database: " +:+ message), w2)) /\
  (forall (w2 w3 : World) (info : CollectionInfo),
     throw (A := unit) "forbidden" quiet_world = (Returned tt, w2) ->
     ret {| points_count := None; ci_status := "green"; ci_config := "{}" |} w2
     = (Returned info, w3) ->
     vector_initialize (ret None) (fun _ _ _ => throw "forbidden")
       (fun _ => ret {| points_count := None; ci_status := "green"; ci_config := "{}" |})
       quiet_world = (Returned tt, w3)).
Proof.
  apply (vector_initialize_missing (ret None) (fun _ _ _ => throw "forbidden")
           (fun _ => ret {| points_count := None; ci_status := "green"; ci_config := "{}" |})
           None quiet_world quiet_world).
  - reflexivity.
  - intros cols H. discriminate H.
Defined.
